(** * AnswerForge: the candidate verification engine

    A shallow embedding of [answerforge/verifier]: the static screener
    ([static_checks.py]), the sandbox executor ([docker_sandbox.py]) and the
    normalizer and orchestrator ([verifier.py]).

    Python [str] values are modelled as [string]; a character is read as
    the code point of the same number, so the strings covered are those over
    U+0000..U+00FF.  The whitespace and word-character tables below are
    CPython's tables restricted to that range. *)

From Stdlib Require Import Bool Arith ZArith Lia List Ascii String.
From Stdlib Require Import DecimalString Sorted Permutation.
From Stdlib Require QArith.
Import ListNotations.
Local Open Scope string_scope.

(** ** Python string primitives *)

Module PyStr.

(** Code point of a character. *)
Definition ord (c : ascii) : N := N_of_ascii c.

Definition in_range (lo hi n : N) : bool := (N.leb lo n) && (N.leb n hi).

(** [str.isspace] on one character: U+0009..U+000D, U+001C..U+0020, U+0085
    and U+00A0.  The same table decides [\s] in [re] for [str] patterns. *)
Definition is_space (c : ascii) : bool :=
  let n := ord c in
  in_range 9 13 n || in_range 28 32 n || N.eqb n 133 || N.eqb n 160.

(** Alphanumeric characters ([str.isalnum]) below U+0100. *)
Definition is_alnum (c : ascii) : bool :=
  let n := ord c in
  in_range 48 57 n || in_range 65 90 n || in_range 97 122 n
  || N.eqb n 170 || N.eqb n 178 || N.eqb n 179 || N.eqb n 181
  || N.eqb n 185 || N.eqb n 186 || in_range 188 190 n
  || in_range 192 214 n || in_range 216 246 n || in_range 248 255 n.

(** The class [\w] of [re]: alphanumeric or underscore. *)
Definition is_word (c : ascii) : bool := is_alnum c || N.eqb (ord c) 95.

(** The line feed, Python's ["\n"]. *)
Definition LF : ascii := ascii_of_N 10.

(** [s.lstrip()] *)
Fixpoint lstrip (s : string) : string :=
  match s with
  | EmptyString => EmptyString
  | String c r => if is_space c then lstrip r else s
  end.

(** [s.rstrip()] *)
Fixpoint rstrip (s : string) : string :=
  match s with
  | EmptyString => EmptyString
  | String c r =>
      match rstrip r with
      | EmptyString => if is_space c then EmptyString else String c EmptyString
      | r' => String c r'
      end
  end.

(** [s.strip()] *)
Definition strip (s : string) : string := rstrip (lstrip s).

(** [c in s] for a one-character needle. *)
Fixpoint contains (c : ascii) (s : string) : bool :=
  match s with
  | EmptyString => false
  | String d r => Ascii.eqb c d || contains c r
  end.

(** [len(s)] *)
Definition len (s : string) : nat := String.length s.

(** Truthiness of a [str]: non-empty. *)
Definition truthy (s : string) : bool :=
  match s with EmptyString => false | _ => true end.

Definition newline : string := String LF EmptyString.

End PyStr.

(** ** The snippet normalizer (verifier.py, make_executable_snippet) *)

Definition make_executable_snippet (code : string) : string :=
  let code := PyStr.rstrip code ++ PyStr.newline in
  if negb (PyStr.contains PyStr.LF (PyStr.strip code)) then
    "print(" ++ PyStr.strip code ++ ")" ++ PyStr.newline
  else code.

(** ** The fragment of [re] used by the blacklist

    Every blacklist pattern is a sequence of: the assertion [\b], a
    one-character atom, or a one-character atom under [*] or [+].  The atoms
    are a literal, [\s], [.] (anything but a line feed) and a bracketed set. *)

Module Re.

Inductive atom : Type :=
  | Lit (c : ascii)
  | Space
  | Dot
  | OneOf (cs : list ascii).

Inductive item : Type :=
  | WordBoundary
  | One (a : atom)
  | Star (a : atom)
  | Plus (a : atom).

Definition regex : Type := list item.

Definition atom_matches (a : atom) (c : ascii) : bool :=
  match a with
  | Lit d => Ascii.eqb c d
  | Space => PyStr.is_space c
  | Dot => negb (Ascii.eqb c PyStr.LF)
  | OneOf cs => existsb (Ascii.eqb c) cs
  end.

Definition word_before (prev : option ascii) : bool :=
  match prev with Some c => PyStr.is_word c | None => false end.

Definition word_after (s : string) : bool :=
  match s with String c _ => PyStr.is_word c | EmptyString => false end.

(** [\b]: exactly one side of the position is a word character. *)
Definition at_boundary (prev : option ascii) (s : string) : bool :=
  xorb (word_before prev) (word_after s).

(** Zero or more characters of [a], then the continuation [k]. *)
Fixpoint star_then (a : atom) (k : option ascii -> string -> bool)
    (prev : option ascii) (s : string) : bool :=
  k prev s ||
  match s with
  | String c r => atom_matches a c && star_then a k (Some c) r
  | EmptyString => false
  end.

(** Does the pattern match at the current position?  [prev] is the character
    just before it, if any. *)
Fixpoint match_here (p : regex) : option ascii -> string -> bool :=
  match p with
  | [] => fun _ _ => true
  | WordBoundary :: p' =>
      fun prev s => at_boundary prev s && match_here p' prev s
  | One a :: p' =>
      fun _ s =>
        match s with
        | String c r => atom_matches a c && match_here p' (Some c) r
        | EmptyString => false
        end
  | Star a :: p' => star_then a (match_here p')
  | Plus a :: p' =>
      fun _ s =>
        match s with
        | String c r =>
            atom_matches a c && star_then a (match_here p') (Some c) r
        | EmptyString => false
        end
  end.

Fixpoint search_from (p : regex) (prev : option ascii) (s : string) : bool :=
  match_here p prev s ||
  match s with
  | String c r => search_from p (Some c) r
  | EmptyString => false
  end.

(** [re.search(p, s)] as a truth value. *)
Definition search (p : regex) (s : string) : bool := search_from p None s.

(** A literal word as a sequence of [One (Lit _)]. *)
Fixpoint lits (s : string) : regex :=
  match s with
  | EmptyString => []
  | String c r => One (Lit c) :: lits r
  end.

End Re.

(** ** The static screener (static_checks.py) *)

Definition DQ : string := String (ascii_of_N 34) EmptyString.
Definition dq : ascii := ascii_of_N 34.
Definition sq : ascii := ascii_of_N 39.

(** A blacklist entry: the pattern text, which is what the screener reports,
    and the pattern it denotes. *)
Record pattern : Type := mkPattern {
  pat_text : string;
  pat_regex : Re.regex
}.

Import Re.

Definition BLACKLIST : list pattern := [
  mkPattern "\bos\.system\s*\("
    (WordBoundary :: lits "os.system" ++ [Star Space; One (Lit "(")]);
  mkPattern "\bsubprocess\."
    (WordBoundary :: lits "subprocess.");
  mkPattern "\beval\s*\("
    (WordBoundary :: lits "eval" ++ [Star Space; One (Lit "(")]);
  mkPattern "\bexec\s*\("
    (WordBoundary :: lits "exec" ++ [Star Space; One (Lit "(")]);
  mkPattern ("\bopen\s*\(.+['\" ++ DQ ++ "]w['\" ++ DQ ++ "]")
    (WordBoundary :: lits "open" ++
     [Star Space; One (Lit "("); Plus Dot;
      One (OneOf [sq; dq]); One (Lit "w"); One (OneOf [sq; dq])]);
  mkPattern "\brequests\."
    (WordBoundary :: lits "requests.");
  mkPattern "\burllib\."
    (WordBoundary :: lits "urllib.");
  mkPattern "\bsocket\."
    (WordBoundary :: lits "socket.")
].

(** [looks_safe_python]: the patterns found, in blacklist order, and whether
    there were none. *)
Definition looks_safe_python (code : string) : bool * list string :=
  let matches :=
    map pat_text (filter (fun p => Re.search (pat_regex p) code) BLACKLIST) in
  (Nat.eqb (List.length matches) 0, matches).


(** ** Python values

    The verifier passes results around as dictionaries.  A [dict] keeps its
    keys in insertion order, so it is an association list without repeated
    keys. *)

#[warnings="-register-all"]
Inductive pyval : Type :=
  | VNone
  | VBool (b : bool)
  | VInt (z : Z)
  | VStr (s : string)
  | VList (l : list pyval)
  | VDict (d : list (string * pyval)).

Definition dict : Type := list (string * pyval).

Module PyDict.

Fixpoint lookup (k : string) (d : dict) : option pyval :=
  match d with
  | [] => None
  | (k', v) :: d' => if String.eqb k k' then Some v else lookup k d'
  end.

(** [d.get(k)]: [None] when the key is absent. *)
Definition get (d : dict) (k : string) : pyval :=
  match lookup k d with Some v => v | None => VNone end.

(** [d.get(k, default)] *)
Definition get_or (d : dict) (k : string) (default : pyval) : pyval :=
  match lookup k d with Some v => v | None => default end.

(** [d[k] = v]: an existing key keeps its place, a new one goes last. *)
Fixpoint set (k : string) (v : pyval) (d : dict) : dict :=
  match d with
  | [] => [(k, v)]
  | (k', v') :: d' =>
      if String.eqb k k' then (k', v) :: d' else (k', v') :: set k v d'
  end.

(** [d.update(u)], also the meaning of [{..., **u}] on top of [d]. *)
Definition update (d u : dict) : dict :=
  fold_left (fun acc kv => set (fst kv) (snd kv) acc) u d.

End PyDict.

(** Truth value of a Python object, as [bool(v)] and [if v] compute it. *)
Definition truthy (v : pyval) : bool :=
  match v with
  | VNone => false
  | VBool b => b
  | VInt z => negb (Z.eqb z 0)
  | VStr s => PyStr.truthy s
  | VList l => match l with [] => false | _ => true end
  | VDict d => match d with [] => false | _ => true end
  end.

(** [a or b] *)
Definition py_or (a b : pyval) : pyval := if truthy a then a else b.

(** The dictionary under a value; [{}] for anything else. *)
Definition as_dict (v : pyval) : dict :=
  match v with VDict d => d | _ => [] end.

(** ** The host

    What the machine does during one call of [run_in_docker]: creating and
    writing the temporary file can fail before the [try] block is entered;
    inside it, [subprocess.run] returns a finished process, raises
    [TimeoutExpired], or raises some other [Exception]. *)

Inductive host_response : Type :=
  | TempFileError (msg : string)
  | Exited (returncode : Z) (stdout stderr : string)
  | TimeoutExpired
  | RunError (msg : string).

(** A Python exception of class [Exception]; [str(e)] is its message. *)
Inductive exn : Type := Exception (msg : string).

Definition str_of_exn (e : exn) : string :=
  match e with Exception msg => msg end.

(** Calls observed during a verification, most recent last. *)
Inductive event : Type :=
  | Screened (code : string)
  | Normalized (code : string)
  | Executed (payload : string) (timeout : Z).

Definition is_executed (e : event) : bool :=
  match e with Executed _ _ => true | _ => false end.

Definition is_normalized (e : event) : bool :=
  match e with Normalized _ => true | _ => false end.

Definition is_screened (e : event) : bool :=
  match e with Screened _ => true | _ => false end.

(** A scripted host for concrete runs: it answers the calls with the listed
    responses in turn, and reports a missing runtime once they are used up. *)
Definition scripted_host (w : list host_response) (code : string) (timeout : Z)
    : host_response * list host_response :=
  match w with
  | r :: w' => (r, w')
  | [] => (RunError "[Errno 2] No such file or directory: 'docker'", [])
  end.

(** The script of a host that is never reached, or has no runtime. *)
Definition no_script : list host_response := [].

(** Outcome of a computation that may raise. *)
Inductive result (A : Type) : Type :=
  | Ok (a : A)
  | Raise (e : exn).
Arguments Ok {A} a.
Arguments Raise {A} e.

Section Engine.

Variable World : Type.

(** The host's answer to [run_in_docker(code, timeout)] in a given world, and
    the world afterwards.  The file handed to the interpreter holds
    [textwrap.dedent(code)]; that step is part of the host. *)
Variable host : World -> string -> Z -> host_response * World.

Record state : Type := mkState {
  world : World;
  trace : list event
}.

(** Computations over the state that may raise. *)
Definition M (A : Type) : Type := state -> result A * state.

Definition ret {A} (a : A) : M A := fun st => (Ok a, st).

Definition bind {A B} (m : M A) (f : A -> M B) : M B :=
  fun st =>
    match m st with
    | (Ok a, st') => f a st'
    | (Raise e, st') => (Raise e, st')
    end.

(** [try: m  except Exception as e: ...], with the outcome made a value. *)
Definition attempt {A} (m : M A) : M (exn + A) :=
  fun st =>
    match m st with
    | (Ok a, st') => (Ok (inr a), st')
    | (Raise e, st') => (Ok (inl e), st')
    end.

Definition log (e : event) : M unit :=
  fun st => (Ok tt, mkState (world st) (trace st ++ [e])).

Notation "x <- m ;; k" := (bind m (fun x => k))
  (at level 61, m at next level, right associativity).
Notation "m ;;; k" := (bind m (fun _ => k))
  (at level 61, right associativity).

(** *** The sandbox executor (docker_sandbox.py) *)

Definition run_in_docker (code : string) (timeout : Z) : M dict :=
  log (Executed code timeout) ;;;
  fun st =>
    let (resp, w) := host (world st) code timeout in
    let st' := mkState w (trace st) in
    match resp with
    | TempFileError msg => (Raise (Exception msg), st')
    | Exited returncode out err =>
        (Ok [("ok", VBool (Z.eqb returncode 0));
             ("stdout", VStr (PyStr.strip out));
             ("stderr", VStr (PyStr.strip err));
             ("return_code", VInt returncode)], st')
    | TimeoutExpired =>
        (Ok [("ok", VBool false); ("error", VStr "timeout");
             ("stdout", VStr ""); ("stderr", VStr "")], st')
    | RunError msg =>
        (Ok [("ok", VBool false); ("error", VStr msg)], st')
    end.

(** *** The orchestrator (verifier.py) *)

Definition call_looks_safe_python (code : string) : M (bool * list string) :=
  log (Screened code) ;;; ret (looks_safe_python code).

Definition call_make_executable_snippet (code : string) : M string :=
  log (Normalized code) ;;; ret (make_executable_snippet code).

Definition _verify_single (code : string) (timeout : Z) : M dict :=
  sm <- call_looks_safe_python code ;;
  if negb (fst sm) then
    ret [("verified", VBool false);
         ("reason", VStr "static_blacklist_match");
         ("matches", VList (map VStr (snd sm)))]
  else
    payload <- call_make_executable_snippet code ;;
    res <- run_in_docker payload timeout ;;
    if truthy (PyDict.get res "ok") then
      ret [("verified", VBool true); ("reason", VStr "docker_passed");
           ("details", VDict res)]
    else
      ret [("verified", VBool false); ("reason", VStr "docker_failed");
           ("details", VDict res)].

(** The entry a loop iteration starts from. *)
Definition fresh_entry (idx : nat) : dict :=
  [("index", VInt (Z.of_nat idx)); ("skipped", VBool false);
   ("verified", VBool false); ("reason", VNone); ("details", VNone)].

(** The test that skips a block: [not blk or len(blk.strip()) < 6]. *)
Definition too_short (blk : string) : bool :=
  negb (PyStr.truthy blk) || (PyStr.len (PyStr.strip blk) <? 6)%nat.

(** The [for idx, blk in enumerate(blocks)] loop, from index [idx] on, with
    the entries appended so far in [tried]. *)
Fixpoint verify_blocks (timeout : Z) (idx : nat) (blocks : list string)
    (tried : list pyval) : M dict :=
  match blocks with
  | [] =>
      ret [("verified", VBool false); ("reason", VStr "no_block_verified");
           ("details", VDict [("tried_blocks", VList tried)])]
  | blk :: rest =>
      let entry := fresh_entry idx in
      if too_short blk then
        let entry :=
          PyDict.update entry
            [("skipped", VBool true); ("reason", VStr "too_short")] in
        verify_blocks timeout (S idx) rest (tried ++ [VDict entry])
      else
        r <- attempt (_verify_single blk timeout) ;;
        match r with
        | inl e =>
            let entry :=
              PyDict.update entry
                [("verified", VBool false);
                 ("reason", VStr "exception_in_verifier");
                 ("details", VDict [("error", VStr (str_of_exn e))])] in
            verify_blocks timeout (S idx) rest (tried ++ [VDict entry])
        | inr res =>
            let entry :=
              PyDict.update entry
                [("verified",
                  VBool (truthy (PyDict.get_or res "verified" (VBool false))));
                 ("reason", PyDict.get res "reason");
                 ("details", PyDict.get res "details")] in
            let tried := (tried ++ [VDict entry])%list in
            if truthy (PyDict.get res "verified") then
              ret [("verified", VBool true);
                   ("reason", PyDict.get res "reason");
                   ("details",
                    VDict (PyDict.update [("tried_blocks", VList tried)]
                             (as_dict
                                (py_or (PyDict.get_or res "details" (VDict []))
                                       (VDict [])))))]
            else verify_blocks timeout (S idx) rest tried
        end
  end.

(** The argument of [verify_python]: one string, or a list of strings. *)
Inductive code_arg : Type :=
  | CodeStr (s : string)
  | CodeList (blocks : list string).

Definition verify_python (code : code_arg) (timeout : Z) : M dict :=
  match code with
  | CodeStr s => _verify_single s timeout
  | CodeList blocks => verify_blocks timeout 0 blocks []
  end.

(** A fresh state: nothing observed yet. *)
Definition start (w : World) : state := mkState w [].

(** *** Reading results *)

(** A field of an entry or result held as a value. *)
Definition field (v : pyval) (k : string) : pyval := PyDict.get (as_dict v) k.

(** [r["details"]["tried_blocks"]], the trial history of a batch result. *)
Definition tried_blocks (r : dict) : list pyval :=
  match field (PyDict.get r "details") "tried_blocks" with
  | VList l => l
  | _ => []
  end.

Definition is_verified (e : pyval) : bool := truthy (field e "verified").

Definition is_skipped (e : pyval) : bool := truthy (field e "skipped").

(** *** One iteration of the loop, for the proofs

    The three entries an iteration can append, and the iteration itself: the
    entry it appends, the single-form result when that verified, and the state
    it leaves. *)

Definition skipped_entry (idx : nat) : dict :=
  [("index", VInt (Z.of_nat idx)); ("skipped", VBool true);
   ("verified", VBool false); ("reason", VStr "too_short");
   ("details", VNone)].

Definition exception_entry (idx : nat) (e : exn) : dict :=
  [("index", VInt (Z.of_nat idx)); ("skipped", VBool false);
   ("verified", VBool false); ("reason", VStr "exception_in_verifier");
   ("details", VDict [("error", VStr (str_of_exn e))])].

Definition result_entry (idx : nat) (res : dict) : dict :=
  [("index", VInt (Z.of_nat idx)); ("skipped", VBool false);
   ("verified", VBool (truthy (PyDict.get_or res "verified" (VBool false))));
   ("reason", PyDict.get res "reason");
   ("details", PyDict.get res "details")].

Definition success_result (tried : list pyval) (res : dict) : dict :=
  [("verified", VBool true);
   ("reason", PyDict.get res "reason");
   ("details",
    VDict (PyDict.update [("tried_blocks", VList tried)]
             (as_dict (py_or (PyDict.get_or res "details" (VDict []))
                             (VDict [])))))].

Definition trial (timeout : Z) (idx : nat) (blk : string) (st : state)
    : pyval * option dict * state :=
  if too_short blk then (VDict (skipped_entry idx), None, st)
  else
    match _verify_single blk timeout st with
    | (Raise e, st') => (VDict (exception_entry idx e), None, st')
    | (Ok res, st') =>
        (VDict (result_entry idx res),
         if truthy (PyDict.get res "verified") then Some res else None, st')
    end.

(** What [_verify_single] returns once the host has answered. *)
Definition single_outcome (resp : host_response) : result dict :=
  match resp with
  | TempFileError msg => Raise (Exception msg)
  | Exited rc out err =>
      let res := [("ok", VBool (Z.eqb rc 0));
                  ("stdout", VStr (PyStr.strip out));
                  ("stderr", VStr (PyStr.strip err));
                  ("return_code", VInt rc)] in
      if Z.eqb rc 0 then
        Ok [("verified", VBool true); ("reason", VStr "docker_passed");
            ("details", VDict res)]
      else
        Ok [("verified", VBool false); ("reason", VStr "docker_failed");
            ("details", VDict res)]
  | TimeoutExpired =>
      Ok [("verified", VBool false); ("reason", VStr "docker_failed");
          ("details",
           VDict [("ok", VBool false); ("error", VStr "timeout");
                  ("stdout", VStr ""); ("stderr", VStr "")])]
  | RunError msg =>
      Ok [("verified", VBool false); ("reason", VStr "docker_failed");
          ("details", VDict [("ok", VBool false); ("error", VStr msg)])]
  end.

(** Events one call of [_verify_single] adds to the trace. *)
Definition single_events (code : string) (timeout : Z) : list event :=
  if fst (looks_safe_python code) then
    [Screened code; Normalized code;
     Executed (make_executable_snippet code) timeout]
  else [Screened code].

(** The result returned when the loop runs off the end of the list. *)
Definition no_block_result (tried : list pyval) : dict :=
  [("verified", VBool false); ("reason", VStr "no_block_verified");
   ("details", VDict [("tried_blocks", VList tried)])].

Definition final_result (tried : list pyval) (won : option dict) : dict :=
  match won with
  | Some res => success_result tried res
  | None => no_block_result tried
  end.

(** A run of the loop from index [idx] in state [st]: the entries it appends,
    the winning single-form result if an iteration verified, and the state at
    the end.  It stops at the first winning iteration. *)
Inductive loop_run (timeout : Z)
    : nat -> list string -> state -> list pyval -> option dict -> state -> Prop :=
  | run_done idx st : loop_run timeout idx [] st [] None st
  | run_won idx blk rest st e res st' :
      trial timeout idx blk st = (e, Some res, st') ->
      loop_run timeout idx (blk :: rest) st [e] (Some res) st'
  | run_next idx blk rest st e st1 new won st' :
      trial timeout idx blk st = (e, None, st1) ->
      loop_run timeout (S idx) rest st1 new won st' ->
      loop_run timeout idx (blk :: rest) st (e :: new) won st'.

(** Number of entries that were not skipped. *)
Definition attempted (l : list pyval) : nat :=
  List.length (filter (fun e => negb (is_skipped e)) l).

Definition count (p : event -> bool) (evs : list event) : nat :=
  List.length (filter p evs).

(** The sources handed to the screener, in the order of the calls. *)
Definition screened_codes (evs : list event) : list string :=
  flat_map (fun e => match e with Screened code => [code] | _ => [] end) evs.

(** The candidates the loop evaluates rather than skips. *)
Definition evaluated (blocks : list string) : list string :=
  filter (fun blk => negb (too_short blk)) blocks.

(** *** Shapes of patterns, for the facts about screening *)

(** Every character of [s] satisfies [f]. *)
Fixpoint all_chars (f : ascii -> bool) (s : string) : bool :=
  match s with
  | EmptyString => true
  | String c r => f c && all_chars f r
  end.

(** The pattern's last item consumes exactly one character of [a]. *)
Inductive ends_with_one (a : atom) : regex -> Prop :=
  | ends_last : ends_with_one a [One a]
  | ends_cons i p : ends_with_one a p -> ends_with_one a (i :: p).

(** The pattern opens with [\b] and a literal word character other than
    [p]. *)
Definition starts_with_word (p : regex) : bool :=
  match p with
  | WordBoundary :: One (Lit w) :: _ =>
      PyStr.is_word w && negb (Ascii.eqb w "p")
  | _ => false
  end.

(** Characters the normalizer can put around a source: whitespace and the
    closing parenthesis. *)
Definition is_padding (c : ascii) : bool :=
  PyStr.is_space c || Ascii.eqb c ")".

(** A pattern whose matches begin with a word character and end with a
    character that is not padding. *)
Definition well_shaped (p : regex) : Prop :=
  starts_with_word p = true /\
  exists a, ends_with_one a p /\
            forall c, is_padding c = true -> atom_matches a c = false.

(** ** The retriever (retriever/stackoverflow.py)

    Responses are JSON values read as [pyval]s.  The clock and its floating
    point arithmetic, the network and the text [str(sorted(params.items()))]
    belong to the Python runtime and are taken as given. *)

(** Python's name for the type of a value, as error messages print it. *)
Definition type_name (v : pyval) : string :=
  match v with
  | VNone => "NoneType"
  | VBool _ => "bool"
  | VInt _ => "int"
  | VStr _ => "str"
  | VList _ => "list"
  | VDict _ => "dict"
  end.

(** [v.get(k, default)]: only a dictionary has the method. *)
Definition py_get (v : pyval) (k : string) (default : pyval) : result pyval :=
  match v with
  | VDict d => Ok (PyDict.get_or d k default)
  | _ =>
      Raise (Exception ("'" ++ type_name v
                        ++ "' object has no attribute 'get'"))
  end.

(** The characters of a string, each a string of length one. *)
Fixpoint chars (s : string) : list pyval :=
  match s with
  | EmptyString => []
  | String c r => VStr (String c EmptyString) :: chars r
  end.

(** The elements [for x in v] runs over. *)
Definition py_iter (v : pyval) : result (list pyval) :=
  match v with
  | VList l => Ok l
  | VStr s => Ok (chars s)
  | VDict d => Ok (map (fun kv => VStr (fst kv)) d)
  | _ => Raise (Exception ("'" ++ type_name v ++ "' object is not iterable"))
  end.

(** Values that can be members of a [set]. *)
Definition hashable (v : pyval) : bool :=
  match v with
  | VList _ | VDict _ => false
  | _ => true
  end.

Definition Z_of_bool (b : bool) : Z := if b then 1%Z else 0%Z.

(** [a == b] on hashable values: [True] and [False] are the integers 1 and
    0. *)
Definition py_eq (a b : pyval) : bool :=
  match a, b with
  | VNone, VNone => true
  | VBool x, VBool y => Bool.eqb x y
  | VInt x, VInt y => Z.eqb x y
  | VBool x, VInt y => Z.eqb (Z_of_bool x) y
  | VInt x, VBool y => Z.eqb x (Z_of_bool y)
  | VStr x, VStr y => String.eqb x y
  | _, _ => false
  end.

(** [v in seen] for a set kept as the list of its members. *)
Definition py_mem (v : pyval) (seen : list pyval) : bool :=
  existsb (py_eq v) seen.

(** [-v] for the values above: an integer or a boolean is negated, anything
    else is a [TypeError].  The numbers among these values are the integers;
    a JSON number read as a Python [float] is not one of them, and what is
    proved about the order of the answers is stated for integer scores. *)
Definition py_neg (v : pyval) : result Z :=
  match v with
  | VInt z => Ok (- z)%Z
  | VBool b => Ok (- Z_of_bool b)%Z
  | _ =>
      Raise (Exception ("bad operand type for unary -: '"
                        ++ type_name v ++ "'"))
  end.

(** [str(n)] for an integer. *)
Definition str_of_int (n : Z) : string := NilZero.string_of_int (Z.to_int n).

(** Run [f] over a list, stopping at the first raise. *)
Fixpoint map_result {A B} (f : A -> result B) (l : list A)
    : result (list B) :=
  match l with
  | [] => Ok []
  | x :: r =>
      match f x with
      | Raise e => Raise e
      | Ok y =>
          match map_result f r with
          | Raise e => Raise e
          | Ok ys => Ok (y :: ys)
          end
      end
  end.

Definition STACK_API_BASE : string := "https://api.stackexchange.com/2.3".

Definition CACHE_TTL : Z := 600.

(** One attempt of [_safe_get]: [requests.get] answered and the body read as
    JSON; [requests.exceptions.Timeout]; another [RequestException], such as
    the one [raise_for_status] raises; or an exception of another class. *)
Inductive http_response : Type :=
  | HttpJson (data : pyval)
  | HttpTimeout
  | HttpRequestError (msg : string)
  | HttpOtherError (msg : string).

(** *** A scripted network for concrete runs

    Time is a rational number of seconds; the network answers the requests
    with the listed responses in turn and refuses connections once they are
    used up; sleeping moves the clock on. *)

Record net : Type := mkNet {
  net_now : QArith_base.Q;
  net_script : list http_response
}.

Definition net_clock (w : net) : QArith_base.Q * net := (net_now w, w).

Definition net_sleep (w : net) (seconds : QArith_base.Q) : net :=
  mkNet (QArith_base.Qplus (net_now w) seconds) (net_script w).

Definition net_http (w : net) (url : string) (params : dict) (timeout : Z)
    : http_response * net :=
  match net_script w with
  | r :: rest => (r, mkNet (net_now w) rest)
  | [] => (HttpRequestError "connection refused", w)
  end.

Definition q_gt (x : QArith_base.Q) (n : Z) : bool := negb (QArith_base.Qle_bool x (QArith_base.inject_Z n)).

Definition q_mul (x : QArith_base.Q) (n : Z) : QArith_base.Q := QArith_base.Qmult x (QArith_base.inject_Z n).

(** A stand-in for [str(sorted(params.items()))] that tells apart the
    parameter sets used here: the values of [sort] and [pagesize]. *)
Definition net_repr (params : dict) : string :=
  match PyDict.get params "sort", PyDict.get params "pagesize" with
  | VStr s, VInt n => s ++ "," ++ str_of_int n
  | _, _ => ""
  end.

(** The lines the retriever prints, by what they report. *)
Inductive message : Type :=
  | MsgCache (url : string)
  | MsgWarnTimeout (attempt : nat) (retries : Z) (url : string)
  | MsgError (url : string) (e : string)
  | MsgFail (url : string)
  | MsgFound (n : nat) (query : string)
  | MsgRetrieved (n : nat) (question_id : Z).

(** The clock's values, with [time.time()], [time.sleep], the difference of
    two readings, the comparison of a duration with an integer and the
    product of a duration and an integer. *)
Variable Time : Type.
Variable clock : World -> Time * World.
Variable sleep : World -> Time -> World.
Variable fsub : Time -> Time -> Time.
Variable fgt : Time -> Z -> bool.
Variable fmul : Time -> Z -> Time.

(** [requests.get(url, params=params, timeout=timeout)] with
    [raise_for_status()] and [json()]. *)
Variable http : World -> string -> dict -> Z -> http_response * World.

(** [str(sorted(params.items()))] *)
Variable params_repr : dict -> string.

(** The default [backoff], 0.75. *)
Variable default_backoff : Time.

Inductive revent : Type :=
  | Requested (url : string) (params : dict) (timeout : Z)
  | Slept (seconds : Time)
  | Printed (m : message).

Definition is_request (e : revent) : bool :=
  match e with Requested _ _ _ => true | _ => false end.

Definition is_sleep (e : revent) : bool :=
  match e with Slept _ => true | _ => false end.

(** The module's state: [_cache], with the world and what was done to it. *)
Record rstate : Type := mkRState {
  rworld : World;
  cache : list (string * (Time * pyval));
  rlog : list revent
}.

Definition R (A : Type) : Type := rstate -> result A * rstate.

Definition rret {A} (a : A) : R A := fun s => (Ok a, s).

Definition rbind {A B} (m : R A) (f : A -> R B) : R B :=
  fun s =>
    match m s with
    | (Ok a, s') => f a s'
    | (Raise e, s') => (Raise e, s')
    end.

(** A pure step that may raise. *)
Definition rlift {A} (r : result A) : R A := fun s => (r, s).

Definition rnote (e : revent) : R unit :=
  fun s => (Ok tt, mkRState (rworld s) (cache s) (rlog s ++ [e])).

Definition print (m : message) : R unit := rnote (Printed m).

Definition read_clock : R Time :=
  fun s =>
    let (t, w) := clock (rworld s) in
    (Ok t, mkRState w (cache s) (rlog s)).

Definition do_sleep (seconds : Time) : R unit :=
  fun s =>
    (Ok tt, mkRState (sleep (rworld s) seconds) (cache s)
              (rlog s ++ [Slept seconds])).

Definition do_request (url : string) (params : dict) (timeout : Z)
    : R http_response :=
  fun s =>
    let (resp, w) := http (rworld s) url params timeout in
    (Ok resp, mkRState w (cache s) (rlog s ++ [Requested url params timeout])).

Notation "x <~ m ;; k" := (rbind m (fun x => k))
  (at level 61, m at next level, right associativity).
Notation "m ;;~ k" := (rbind m (fun _ => k))
  (at level 61, right associativity).

(** *** The cache *)

Fixpoint cache_get (key : string) (c : list (string * (Time * pyval)))
    : option (Time * pyval) :=
  match c with
  | [] => None
  | (k, v) :: c' => if String.eqb key k then Some v else cache_get key c'
  end.

(** [_cache[key] = v] *)
Fixpoint cache_put (key : string) (v : Time * pyval)
    (c : list (string * (Time * pyval))) : list (string * (Time * pyval)) :=
  match c with
  | [] => [(key, v)]
  | (k, v') :: c' =>
      if String.eqb key k then (k, v) :: c' else (k, v') :: cache_put key v c'
  end.

(** [_cache.pop(key, None)] *)
Fixpoint cache_pop (key : string) (c : list (string * (Time * pyval)))
    : list (string * (Time * pyval)) :=
  match c with
  | [] => []
  | (k, v) :: c' =>
      if String.eqb key k then c' else (k, v) :: cache_pop key c'
  end.

Definition _get_from_cache (key : string) : R pyval :=
  fun s =>
    match cache_get key (cache s) with
    | None => (Ok VNone, s)
    | Some (ts, data) =>
        (now <~ read_clock ;;
         if fgt (fsub now ts) CACHE_TTL then
           fun s' =>
             (Ok VNone,
              mkRState (rworld s') (cache_pop key (cache s')) (rlog s'))
         else rret data) s
    end.

Definition _save_to_cache (key : string) (data : pyval) : R unit :=
  now <~ read_clock ;;
  fun s =>
    (Ok tt, mkRState (rworld s) (cache_put key (now, data) (cache s)) (rlog s)).

(** *** The request with retries *)

(** The attempts [attempt], [attempt + 1], ... of the [for] loop, [remaining]
    of them, and what follows the loop. *)
Fixpoint safe_get_attempts (url : string) (params : dict) (retries : Z)
    (timeout : Z) (backoff : Time) (cache_key : string)
    (remaining attempt : nat) : R pyval :=
  match remaining with
  | O => print (MsgFail url) ;;~ rret (VDict [])
  | S n =>
      resp <~ do_request url params timeout ;;
      match resp with
      | HttpJson data => _save_to_cache cache_key data ;;~ rret data
      | HttpOtherError msg => rlift (Raise (Exception msg))
      | HttpTimeout =>
          print (MsgWarnTimeout (attempt + 1) retries url) ;;~
          do_sleep (fmul backoff (Z.of_nat attempt + 1)) ;;~
          safe_get_attempts url params retries timeout backoff cache_key
            n (S attempt)
      | HttpRequestError msg =>
          print (MsgError url msg) ;;~
          do_sleep (fmul backoff (Z.of_nat attempt + 1)) ;;~
          safe_get_attempts url params retries timeout backoff cache_key
            n (S attempt)
      end
  end.

Definition _safe_get (url : string) (params : dict) (retries : Z)
    (timeout : Z) (backoff : Time) : R pyval :=
  let cache_key := url ++ ":" ++ params_repr params in
  cached <~ _get_from_cache cache_key ;;
  if truthy cached then print (MsgCache url) ;;~ rret cached
  else
    safe_get_attempts url params retries timeout backoff cache_key
      (Z.to_nat retries) 0.

(** *** Searching questions *)

(** The entry built from one item of a response. *)
Definition question_of_item (item : pyval) : result dict :=
  match py_get item "question_id" VNone with
  | Raise e => Raise e
  | Ok qid =>
      match py_get item "title" VNone with
      | Raise e => Raise e
      | Ok title =>
          match py_get item "link" VNone with
          | Raise e => Raise e
          | Ok link =>
              Ok [("question_id", qid); ("title", title); ("link", link)]
          end
      end
  end.

(** [for item in data.get("items", []): questions.append({...})] *)
Definition questions_of_response (data : pyval) : result (list dict) :=
  match py_get data "items" (VList []) with
  | Raise e => Raise e
  | Ok items =>
      match py_iter items with
      | Raise e => Raise e
      | Ok l => map_result question_of_item l
      end
  end.

(** The deduplication loop over [questions], with the set [seen] and the
    list [result] built so far. *)
Fixpoint dedupe (max_questions : Z) (questions : list dict)
    (seen : list pyval) (res : list dict) : result (list dict) :=
  match questions with
  | [] => Ok res
  | q :: rest =>
      let qid := PyDict.get q "question_id" in
      let step :=
        if truthy qid then
          if hashable qid then
            if negb (py_mem qid seen) then Ok (qid :: seen, (res ++ [q])%list)
            else Ok (seen, res)
          else
            Raise (Exception ("unhashable type: '" ++ type_name qid ++ "'"))
        else Ok (seen, res) in
      match step with
      | Raise e => Raise e
      | Ok (seen', res') =>
          if (max_questions <=? Z.of_nat (List.length res'))%Z then Ok res'
          else dedupe max_questions rest seen' res'
      end
  end.

Definition search_params (sort : string) (query : string) (accepted : bool)
    (pagesize : Z) : dict :=
  ([("order", VStr "desc"); ("sort", VStr sort); ("q", VStr query)]
   ++ (if accepted then [("accepted", VStr "True")] else [])
   ++ [("site", VStr "stackoverflow"); ("pagesize", VInt pagesize)])%list.

Definition search_stackoverflow (query : string) (max_questions : Z)
    : R (list dict) :=
  let page_size := Z.min max_questions 50 in
  let url := STACK_API_BASE ++ "/search/advanced" in
  data <~ _safe_get url (search_params "relevance" query true page_size)
            3 10 default_backoff ;;
  questions <~ rlift (questions_of_response data) ;;
  questions <~
    (if (Z.of_nat (List.length questions) <? max_questions)%Z then
       let needed := (max_questions - Z.of_nat (List.length questions))%Z in
       data <~ _safe_get url
                 (search_params "votes" query false (Z.min needed 50))
                 3 10 default_backoff ;;
       more <~ rlift (questions_of_response data) ;;
       rret (questions ++ more)%list
     else rret questions) ;;
  res <~ rlift (dedupe max_questions questions [] []) ;;
  print (MsgFound (List.length res) query) ;;~
  rret res.

(** *** Fetching answers *)

Definition answer_of_item (it : pyval) : result dict :=
  match py_get it "answer_id" VNone with
  | Raise e => Raise e
  | Ok answer_id =>
      match py_get it "body" (VStr "") with
      | Raise e => Raise e
      | Ok body =>
          match py_get it "is_accepted" (VBool false) with
          | Raise e => Raise e
          | Ok is_accepted =>
              match py_get it "score" (VInt 0) with
              | Raise e => Raise e
              | Ok score =>
                  Ok [("answer_id", answer_id); ("body", body);
                      ("is_accepted", is_accepted); ("score", score)]
              end
          end
      end
  end.

(** The sort key [(not a["is_accepted"], -a["score"])]. *)
Definition answer_key (a : dict) : result (bool * Z) :=
  match py_neg (PyDict.get a "score") with
  | Raise e => Raise e
  | Ok n => Ok (negb (truthy (PyDict.get a "is_accepted")), n)
  end.

(** Order of the keys: tuples compare by their first components, then by
    their second; [False] is below [True]. *)
Definition key_le (x y : bool * Z) : bool :=
  match fst x, fst y with
  | false, true => true
  | true, false => false
  | _, _ => (snd x <=? snd y)%Z
  end.

(** [list.sort(key=...)] is a stable sort; any stable sort gives its result.
    Here elements are inserted from the last to the first, each in front of
    the elements whose key is not smaller. *)
Fixpoint insert_by_key (x : (bool * Z) * dict) (l : list ((bool * Z) * dict))
    : list ((bool * Z) * dict) :=
  match l with
  | [] => [x]
  | y :: l' =>
      if key_le (fst x) (fst y) then x :: y :: l'
      else y :: insert_by_key x l'
  end.

Definition sort_by_key (l : list ((bool * Z) * dict))
    : list ((bool * Z) * dict) :=
  fold_right insert_by_key [] l.

(** [answers.sort(key=lambda a: (not a["is_accepted"], -a["score"]))]: the
    keys of all answers are computed first. *)
Definition sort_answers (answers : list dict) : result (list dict) :=
  match map_result (fun a => match answer_key a with
                             | Raise e => Raise e
                             | Ok k => Ok (k, a)
                             end) answers with
  | Raise e => Raise e
  | Ok keyed => Ok (map snd (sort_by_key keyed))
  end.

Definition answers_params (pagesize : Z) : dict :=
  [("order", VStr "desc"); ("sort", VStr "votes");
   ("site", VStr "stackoverflow"); ("filter", VStr "withbody");
   ("pagesize", VInt pagesize)].

Definition fetch_answers (question_id : Z) (max_answers : Z)
    : R (list dict) :=
  let url := STACK_API_BASE ++ "/questions/" ++ str_of_int question_id
             ++ "/answers" in
  data <~ _safe_get url (answers_params (Z.min max_answers 100))
            3 10 default_backoff ;;
  items <~ rlift (match py_get data "items" (VList []) with
                  | Raise e => Raise e
                  | Ok v => py_iter v
                  end) ;;
  answers <~ rlift (map_result answer_of_item items) ;;
  answers <~ rlift (sort_answers answers) ;;
  print (MsgRetrieved (List.length answers) question_id) ;;~
  rret answers.

(** The durations slept, in order. *)
Definition sleeps_of (evs : list revent) : list Time :=
  flat_map (fun e => match e with Slept t => [t] | _ => [] end) evs.

Definition requests_in (evs : list revent) : nat :=
  List.length (filter is_request evs).

(** The [question_id] of an entry. *)
Definition qid_of (q : dict) : pyval := PyDict.get q "question_id".

(** [l] is [l'] with some elements left out. *)
Inductive subseq {A : Type} : list A -> list A -> Prop :=
  | subseq_nil : subseq [] []
  | subseq_skip x l l' : subseq l l' -> subseq l (x :: l')
  | subseq_take x l l' : subseq l l' -> subseq (x :: l) (x :: l').

(** A network that cannot be reached. *)
Definition dead_http (w : net) (url : string) (params : dict) (timeout : Z)
    : http_response * net :=
  (HttpRequestError "connection refused", w).

(** A failed attempt that [_safe_get] retries. *)
Definition is_soft_failure (resp : http_response) : bool :=
  match resp with
  | HttpTimeout | HttpRequestError _ => true
  | _ => false
  end.




Definition key_eqb (x y : bool * Z) : bool :=
  Bool.eqb (fst x) (fst y) && Z.eqb (snd x) (snd y).

(** The answers whose sort key is [k]. *)
Definition has_key (k : bool * Z) (a : dict) : bool :=
  match answer_key a with
  | Ok k' => key_eqb k' k
  | Raise _ => false
  end.

(** [a] may stand before [b] in the sorted list. *)
Definition answer_le (a b : dict) : Prop :=
  match answer_key a, answer_key b with
  | Ok ka, Ok kb => key_le ka kb = true
  | _, _ => False
  end.

Definition is_accepted (a : dict) : bool :=
  truthy (PyDict.get a "is_accepted").

(** The answer's score is an [int] ([bool] included). *)
Definition int_score (a : dict) : bool :=
  match PyDict.get a "score" with
  | VInt _ | VBool _ => true
  | _ => false
  end.

(** The score of an answer whose score is an integer. *)
Definition score_of (a : dict) : Z :=
  match py_neg (PyDict.get a "score") with
  | Ok n => (- n)%Z
  | Raise _ => 0%Z
  end.

(** *** Extracting code from an answer

    The parsed document and its queries are BeautifulSoup's: the parser, the
    tags of a given name below a node in document order, the first such tag,
    and the text below a tag. *)

Variable Soup : Type.
Variable Tag : Type.
Variable parse_html : string -> Soup.
Variable soup_find_all : Soup -> string -> list Tag.
Variable tag_find : Tag -> string -> option Tag.
Variable get_text : Tag -> string.

(** The first loop: the text of each [pre], taken from its [code] child when
    it has one, kept trimmed when it is not blank. *)
Definition pre_blocks (soup : Soup) : list string :=
  flat_map
    (fun pre =>
       let code :=
         match tag_find pre "code" with
         | Some code_tag => get_text code_tag
         | None => get_text pre
         end in
       if PyStr.truthy code && PyStr.truthy (PyStr.strip code)
       then [PyStr.strip code] else [])
    (soup_find_all soup "pre").

(** The fallback loop over inline [code] tags. *)
Definition inline_blocks (soup : Soup) : list string :=
  flat_map
    (fun code =>
       let txt := PyStr.strip (get_text code) in
       if PyStr.truthy txt then [txt] else [])
    (soup_find_all soup "code").

(** The last loop: fragments of fewer than three characters are dropped. *)
Definition clean_blocks (code_blocks : list string) : list string :=
  flat_map
    (fun c =>
       let c_clean := PyStr.strip c in
       if (PyStr.len c_clean <? 3)%nat then [] else [c_clean])
    code_blocks.

Definition extract_code_blocks (html : string) : list string :=
  if negb (PyStr.truthy html) then []
  else
    let soup := parse_html html in
    let code_blocks := pre_blocks soup in
    let code_blocks :=
      match code_blocks with
      | [] => inline_blocks soup
      | _ => code_blocks
      end in
    clean_blocks code_blocks.

(** *** A toy document for concrete runs: one [pre] element holding the
    text as it is, with no [code] tag inside. *)

Definition toy_parse (html : string) : list (string * string) :=
  [("pre", html)].

Definition toy_find_all (soup : list (string * string)) (name : string)
    : list (string * string) :=
  filter (fun t => String.eqb (fst t) name) soup.

Definition toy_find (t : string * string) (name : string)
    : option (string * string) := None.

Definition toy_text (t : string * string) : string := snd t.

(** ** Facts about strings *)

Lemma is_space_LF : PyStr.is_space PyStr.LF = true.
Proof. reflexivity. Qed.

Lemma rstrip_app_space (s : string) (c : ascii) :
  PyStr.is_space c = true ->
  PyStr.rstrip (s ++ String c EmptyString) = PyStr.rstrip s.
Proof.
  intros Hc. induction s as [|a r IH]; simpl.
  - now rewrite Hc.
  - now rewrite IH.
Qed.

Lemma rstrip_idempotent (s : string) :
  PyStr.rstrip (PyStr.rstrip s) = PyStr.rstrip s.
Proof.
  induction s as [|a r IH]; simpl; [reflexivity|].
  destruct (PyStr.rstrip r) as [|b r'] eqn:E.
  - destruct (PyStr.is_space a) eqn:Ha; simpl; [reflexivity|now rewrite Ha].
  - simpl in *. now rewrite IH.
Qed.

Lemma lstrip_rstrip_comm (s : string) :
  PyStr.lstrip (PyStr.rstrip s) = PyStr.rstrip (PyStr.lstrip s).
Proof.
  induction s as [|a r IH]; [reflexivity|].
  cbn [PyStr.lstrip]. destruct (PyStr.is_space a) eqn:Ha.
  - rewrite <- IH. cbn [PyStr.rstrip].
    destruct (PyStr.rstrip r) as [|b r'] eqn:E.
    + now rewrite Ha.
    + cbn [PyStr.lstrip]. now rewrite Ha.
  - cbn [PyStr.rstrip].
    destruct (PyStr.rstrip r) as [|b r'] eqn:E; rewrite ?Ha;
      cbn [PyStr.lstrip]; now rewrite Ha.
Qed.

Lemma lstrip_app_space (t : string) (c : ascii) :
  PyStr.is_space c = true ->
  PyStr.lstrip (t ++ String c EmptyString)
  = match PyStr.lstrip t with
    | EmptyString => EmptyString
    | u => u ++ String c EmptyString
    end.
Proof.
  intros Hc. induction t as [|a r IH]; simpl.
  - now rewrite Hc.
  - destruct (PyStr.is_space a); [exact IH|reflexivity].
Qed.

(** Trimming after the normalizer's first line gives the trimmed source. *)
Lemma strip_rstrip_newline (s : string) :
  PyStr.strip (PyStr.rstrip s ++ PyStr.newline) = PyStr.strip s.
Proof.
  unfold PyStr.strip, PyStr.newline.
  rewrite (lstrip_app_space _ _ is_space_LF).
  rewrite <- (lstrip_rstrip_comm s).
  destruct (PyStr.lstrip (PyStr.rstrip s)) as [|b u] eqn:E; [reflexivity|].
  rewrite (rstrip_app_space _ _ is_space_LF).
  rewrite <- E, <- lstrip_rstrip_comm. now rewrite rstrip_idempotent.
Qed.

(** ** Facts about the executor and the single-form pipeline *)

Lemma run_in_docker_state (code : string) (timeout : Z) (st : state) :
  snd (run_in_docker code timeout st)
  = mkState (snd (host (world st) code timeout))
            (trace st ++ [Executed code timeout]).
Proof.
  unfold run_in_docker, bind, log; cbn [world trace].
  destruct (host (world st) code timeout) as [resp w].
  destruct resp; reflexivity.
Qed.

(** The single-form pipeline, in one equation: the screener decides on the
    source as given; only then the normalizer and the executor run. *)
Lemma _verify_single_run (code : string) (timeout : Z) (st : state) :
  _verify_single code timeout st
  = if fst (looks_safe_python code) then
      (single_outcome
         (fst (host (world st) (make_executable_snippet code) timeout)),
       mkState (snd (host (world st) (make_executable_snippet code) timeout))
               (trace st ++ single_events code timeout))
    else
      (Ok [("verified", VBool false);
           ("reason", VStr "static_blacklist_match");
           ("matches", VList (map VStr (snd (looks_safe_python code))))],
       mkState (world st) (trace st ++ single_events code timeout)).
Proof.
  unfold _verify_single, call_looks_safe_python, call_make_executable_snippet,
    run_in_docker, single_events, bind, log, ret; cbn [world trace].
  destruct (fst (looks_safe_python code)); cbn [negb world trace];
    [|reflexivity].
  destruct (host (world st) (make_executable_snippet code) timeout)
    as [resp w]; cbn [fst snd].
  rewrite <- !app_assoc; cbn [app].
  destruct resp as [msg|rc out err| |msg]; cbn [single_outcome world trace];
    try reflexivity.
  unfold PyDict.get; cbn. destruct (Z.eqb rc 0); reflexivity.
Qed.

(** One iteration never raises, whatever the pipeline does. *)
Lemma verify_blocks_cons (timeout : Z) (idx : nat) (blk : string)
    (rest : list string) (tried : list pyval) (st : state) :
  verify_blocks timeout idx (blk :: rest) tried st
  = match trial timeout idx blk st with
    | (e, Some res, st') => (Ok (success_result (tried ++ [e]) res), st')
    | (e, None, st') => verify_blocks timeout (S idx) rest (tried ++ [e]) st'
    end.
Proof.
  cbn [verify_blocks]. unfold trial.
  destruct (too_short blk); [reflexivity|].
  unfold bind at 1, attempt.
  destruct (_verify_single blk timeout st) as [[res|e] st']; [|reflexivity].
  destruct (truthy (PyDict.get res "verified")); reflexivity.
Qed.

(** ** Facts about one iteration *)

(** Case analysis of an iteration: skipped, rejected by the screener, or one
    of the host's four answers (an exit splits on its return code). *)
Ltac trial_cases blk timeout st :=
  unfold trial;
  destruct (too_short blk) eqn:?;
  [ | rewrite _verify_single_run;
      destruct (fst (looks_safe_python blk)) eqn:?;
      [ destruct (host (world st) (make_executable_snippet blk) timeout)
          as [[?msg|?rc ?out ?err| |?msg] ?w];
        cbn [single_outcome fst snd];
        [ | destruct (Z.eqb rc 0) eqn:? | | ]
      | ] ].

Ltac trial_solve :=
  intros; subst;
  repeat match goal with
         | H : (_, _, _) = (_, _, _) |- _ => injection H as <- <- <-
         end;
  cbn; try discriminate; try reflexivity; auto.

Lemma trial_index timeout idx blk st e won st' :
  trial timeout idx blk st = (e, won, st') ->
  field e "index" = VInt (Z.of_nat idx).
Proof. trial_cases blk timeout st; trial_solve. Qed.

Lemma trial_skipped timeout idx blk st e won st' :
  trial timeout idx blk st = (e, won, st') ->
  field e "skipped" = VBool (too_short blk).
Proof.
  intros H. destruct (too_short blk) eqn:E; revert H; unfold trial; rewrite E.
  - trial_solve.
  - rewrite _verify_single_run.
    destruct (fst (looks_safe_python blk));
      [destruct (fst (host (world st) (make_executable_snippet blk) timeout))
         as [?|rc ? ?| |?]; cbn [single_outcome];
       [ | destruct (Z.eqb rc 0) | | ] | ];
      trial_solve.
Qed.

Lemma trial_verified timeout idx blk st e won st' :
  trial timeout idx blk st = (e, won, st') ->
  field e "verified"
  = VBool (match won with Some _ => true | None => false end).
Proof. trial_cases blk timeout st; trial_solve. Qed.

(** A winning iteration ran the sandbox to exit code 0; the result built from
    it keeps the history handed to it. *)
Lemma trial_won timeout idx blk st e res st' :
  trial timeout idx blk st = (e, Some res, st') ->
  PyDict.get res "reason" = VStr "docker_passed" /\
  (forall tried, tried_blocks (success_result tried res) = tried) /\
  field e "details" = PyDict.get res "details" /\
  PyDict.get (as_dict (PyDict.get res "details")) "ok" = VBool true.
Proof.
  trial_cases blk timeout st; trial_solve.
Qed.

Lemma trial_trace timeout idx blk st e won st' :
  trial timeout idx blk st = (e, won, st') ->
  trace st' = (trace st ++
               if too_short blk then [] else single_events blk timeout)%list.
Proof.
  intros H. destruct (too_short blk) eqn:E; revert H; unfold trial; rewrite E.
  - intros [= <- <- <-]. now rewrite app_nil_r.
  - rewrite _verify_single_run.
    destruct (fst (looks_safe_python blk));
      [destruct (fst (host (world st) (make_executable_snippet blk) timeout))
         as [?|rc ? ?| |?]; cbn [single_outcome];
       [ | destruct (Z.eqb rc 0) | | ] | ];
      trial_solve.
Qed.

(** ** Facts about the loop *)

(** The loop always returns, and what it returns is read off its run. *)
Lemma verify_blocks_run (timeout : Z) (blocks : list string) :
  forall idx tried st,
  exists new won st',
    loop_run timeout idx blocks st new won st' /\
    verify_blocks timeout idx blocks tried st
    = (Ok (final_result (tried ++ new) won), st').
Proof.
  induction blocks as [|blk rest IH]; intros idx tried st.
  - exists [], None, st. split; [constructor|].
    cbn. now rewrite app_nil_r.
  - rewrite verify_blocks_cons.
    destruct (trial timeout idx blk st) as [[e [res|]] st1] eqn:T.
    + exists [e], (Some res), st1. split; [now apply run_won|reflexivity].
    + destruct (IH (S idx) (tried ++ [e])%list st1)
        as (new & won & st' & R & E).
      exists (e :: new), won, st'. split; [now apply run_next with st1|].
      rewrite E, <- app_assoc. reflexivity.
Qed.

Lemma loop_run_functional timeout idx blocks st new won st' :
  loop_run timeout idx blocks st new won st' ->
  forall new2 won2 st2,
    loop_run timeout idx blocks st new2 won2 st2 ->
    new2 = new /\ won2 = won /\ st2 = st'.
Proof.
  induction 1 as [idx st|idx blk rest st e res st' T
                 |idx blk rest st e st1 new won st' T R IH];
    intros new2 won2 st2 R2; inversion R2; subst; auto;
    match goal with
    | H1 : trial ?t ?i ?b ?s = _, H2 : trial ?t ?i ?b ?s = _ |- _ =>
        rewrite H1 in H2; inversion H2; subst
    end; auto.
  match goal with
  | H : loop_run _ _ _ _ _ _ _ |- _ =>
      destruct (IH _ _ _ H) as (-> & -> & ->)
  end. auto.
Qed.

Lemma tried_blocks_final (tried : list pyval) timeout idx blocks st new won st' :
  loop_run timeout idx blocks st new won st' ->
  tried_blocks (final_result tried won) = tried.
Proof.
  induction 1 as [| ? ? ? ? ? ? ? T|]; auto.
  cbn [final_result]. now apply (trial_won _ _ _ _ _ _ _ T).
Qed.

Lemma final_result_verified (tried : list pyval) (won : option dict) :
  PyDict.get (final_result tried won) "verified"
  = VBool (match won with Some _ => true | None => false end).
Proof. destruct won; reflexivity. Qed.

(** Entries are appended one per candidate reached. *)
Lemma loop_run_length timeout idx blocks st new won st' :
  loop_run timeout idx blocks st new won st' ->
  (List.length new <= List.length blocks)%nat /\
  (won = None -> List.length new = List.length blocks).
Proof.
  induction 1 as [| |? ? ? ? ? ? ? ? ? T R [IH1 IH2]]; cbn [List.length].
  - auto.
  - split; [lia|discriminate].
  - split; [lia|]. intros ->. now rewrite IH2.
Qed.

(** The entry at position [i] of a run is the one of the candidate at
    position [i]: it carries index [idx + i] and that candidate's skip test. *)
Lemma loop_run_nth timeout idx blocks st new won st' :
  loop_run timeout idx blocks st new won st' ->
  forall i e,
    nth_error new i = Some e ->
    field e "index" = VInt (Z.of_nat (idx + i)) /\
    exists blk, nth_error blocks i = Some blk /\
                field e "skipped" = VBool (too_short blk).
Proof.
  induction 1 as [|idx blk rest st e res st' T
                 |idx blk rest st e st1 new won st' T R IH]; intros i x Hx.
  - destruct i; discriminate.
  - destruct i as [|i]; [|destruct i; discriminate].
    injection Hx as <-. rewrite Nat.add_0_r. split.
    + exact (trial_index _ _ _ _ _ _ _ T).
    + exists blk. split; [reflexivity|exact (trial_skipped _ _ _ _ _ _ _ T)].
  - destruct i as [|i].
    + injection Hx as <-. rewrite Nat.add_0_r. split.
      * exact (trial_index _ _ _ _ _ _ _ T).
      * exists blk. split; [reflexivity|exact (trial_skipped _ _ _ _ _ _ _ T)].
    + cbn in Hx. destruct (IH _ _ Hx) as [Hi Hb].
      rewrite Nat.add_succ_r. auto.
Qed.

(** Only the last entry of a run can be verified, and it is exactly when an
    iteration won. *)
Lemma loop_run_verified timeout idx blocks st new won st' :
  loop_run timeout idx blocks st new won st' ->
  match won with
  | None => Forall (fun e => field e "verified" = VBool false) new
  | Some _ =>
      exists init last,
        new = (init ++ [last])%list /\
        Forall (fun e => field e "verified" = VBool false) init /\
        field last "verified" = VBool true
  end.
Proof.
  induction 1 as [|idx blk rest st e res st' T
                 |idx blk rest st e st1 new won st' T R IH].
  - constructor.
  - exists [], e. repeat split; [constructor|].
    exact (trial_verified _ _ _ _ _ _ _ T).
  - pose proof (trial_verified _ _ _ _ _ _ _ T) as V. cbn in V.
    destruct won as [res|].
    + destruct IH as (init & last & -> & Hi & Hl).
      exists (e :: init), last. repeat split; auto.
    + constructor; auto.
Qed.

Lemma count_app (p : event -> bool) (a b : list event) :
  count p (a ++ b) = (count p a + count p b)%nat.
Proof. unfold count. now rewrite filter_app, length_app. Qed.

Lemma single_events_counts (code : string) (timeout : Z) :
  count is_screened (single_events code timeout) = 1%nat /\
  count is_normalized (single_events code timeout)
  = count is_executed (single_events code timeout) /\
  (count is_executed (single_events code timeout) <= 1)%nat.
Proof.
  unfold single_events.
  destruct (fst (looks_safe_python code)); cbn; repeat split; lia.
Qed.

(** The calls a run makes: one screening per entry that was not skipped, and
    at most one normalization and one execution after each screening. *)
Lemma loop_run_trace timeout idx blocks st new won st' :
  loop_run timeout idx blocks st new won st' ->
  exists evs,
    trace st' = (trace st ++ evs)%list /\
    count is_screened evs = attempted new /\
    count is_normalized evs = count is_executed evs /\
    (count is_executed evs <= attempted new)%nat.
Proof.
  assert (step : forall idx blk st e won st1,
             trial timeout idx blk st = (e, won, st1) ->
             exists evs,
               trace st1 = (trace st ++ evs)%list /\
               count is_screened evs = attempted [e] /\
               count is_normalized evs = count is_executed evs /\
               (count is_executed evs <= attempted [e])%nat).
  { clear. intros idx blk st e won st1 T.
    pose proof (trial_trace _ _ _ _ _ _ _ T) as Ht.
    pose proof (trial_skipped _ _ _ _ _ _ _ T) as Hs.
    exists (if too_short blk then [] else single_events blk timeout).
    split; [exact Ht|].
    unfold attempted, is_skipped; cbn [filter]; rewrite Hs; cbn [truthy].
    destruct (too_short blk); cbn [negb List.length].
    - cbn. repeat split; lia.
    - destruct (single_events_counts blk timeout) as (-> & -> & ?).
      repeat split; lia. }
  induction 1 as [idx st|idx blk rest st e res st' T
                 |idx blk rest st e st1 new won st' T R IH].
  - exists []. rewrite app_nil_r. cbn. repeat split; lia.
  - exact (step _ _ _ _ _ _ T).
  - destruct (step _ _ _ _ _ _ T) as (ev1 & E1 & S1 & N1 & X1).
    destruct IH as (ev2 & E2 & S2 & N2 & X2).
    exists (ev1 ++ ev2)%list. rewrite E2, E1, <- app_assoc.
    rewrite !count_app.
    assert (A : attempted (e :: new) = (attempted [e] + attempted new)%nat).
    { unfold attempted. cbn [filter].
      destruct (negb (is_skipped e)); cbn [List.length]; lia. }
    rewrite A. repeat split; lia.
Qed.

(** Once an iteration has won, the candidates behind it do not matter. *)
Lemma loop_run_app_won timeout idx blocks st new res st' (post : list string) :
  loop_run timeout idx blocks st new (Some res) st' ->
  loop_run timeout idx (blocks ++ post) st new (Some res) st'.
Proof.
  intros R. remember (Some res) as won eqn:W.
  induction R as [idx st|idx blk rest st e res' st' T
                 |idx blk rest st e st1 new won st' T R IH].
  - discriminate.
  - cbn [app]. now apply run_won.
  - cbn [app]. apply run_next with st1; auto.
Qed.

(** A run without a winner goes on with the candidates behind it. *)
Lemma loop_run_app_none timeout idx blocks st new st1 post new2 won st' :
  loop_run timeout idx blocks st new None st1 ->
  loop_run timeout (idx + List.length blocks) post st1 new2 won st' ->
  loop_run timeout idx (blocks ++ post) st (new ++ new2) won st'.
Proof.
  intros R. remember None as w eqn:W. revert W.
  induction R as [idx st|idx blk rest st e res' st1 T
                 |idx blk rest st e st0 new w st1 T R IH]; intros W R2.
  - cbn in R2. now rewrite Nat.add_0_r in R2.
  - discriminate.
  - cbn [app]. apply run_next with st0; [exact T|].
    apply IH; [exact W|].
    cbn [List.length] in R2. now rewrite Nat.add_succ_r in R2.
Qed.

Lemma loop_run_indices timeout idx blocks st new won st' :
  loop_run timeout idx blocks st new won st' ->
  map (fun e => field e "index") new
  = map (fun i => VInt (Z.of_nat i)) (seq idx (List.length new)).
Proof.
  induction 1 as [|idx blk rest st e res st' T
                 |idx blk rest st e st1 new won st' T R IH]; cbn.
  - reflexivity.
  - now rewrite (trial_index _ _ _ _ _ _ _ T).
  - now rewrite (trial_index _ _ _ _ _ _ _ T), IH.
Qed.

(** The entry of a winning iteration is not a skipped one. *)
Lemma loop_run_won_evaluated timeout idx blocks st new res st' :
  loop_run timeout idx blocks st new (Some res) st' ->
  exists init last,
    new = (init ++ [last])%list /\ field last "skipped" = VBool false.
Proof.
  intros R. remember (Some res) as won eqn:W.
  induction R as [idx st|idx blk rest st e res' st' T
                 |idx blk rest st e st1 new won st' T R IH].
  - discriminate.
  - exists [], e. split; [reflexivity|].
    rewrite (trial_skipped _ _ _ _ _ _ _ T).
    destruct (too_short blk) eqn:K; [|reflexivity].
    unfold trial in T. rewrite K in T. discriminate.
  - destruct (IH W) as (init & last & -> & H).
    now exists (e :: init), last.
Qed.

Lemma screened_codes_app (a b : list event) :
  screened_codes (a ++ b) = (screened_codes a ++ screened_codes b)%list.
Proof. apply flat_map_app. Qed.

Lemma single_events_screened (code : string) (timeout : Z) :
  screened_codes (single_events code timeout) = [code].
Proof.
  unfold single_events. now destruct (fst (looks_safe_python code)).
Qed.

(** The candidates a run has reached are the first ones of the list, as many
    as it has appended entries: the entries carry their skip tests in order,
    and the screener was called on those of them that were not skipped, in
    order, and on nothing else. *)
Lemma loop_run_reached timeout idx blocks st new won st' :
  loop_run timeout idx blocks st new won st' ->
  exists evs,
    trace st' = (trace st ++ evs)%list /\
    screened_codes evs = evaluated (firstn (List.length new) blocks) /\
    map (fun e => field e "skipped") new
    = map (fun blk => VBool (too_short blk)) (firstn (List.length new) blocks).
Proof.
  assert (step : forall idx blk st e won st1,
             trial timeout idx blk st = (e, won, st1) ->
             exists evs,
               trace st1 = (trace st ++ evs)%list /\
               screened_codes evs = evaluated [blk] /\
               field e "skipped" = VBool (too_short blk)).
  { clear. intros idx blk st e won st1 T.
    exists (if too_short blk then [] else single_events blk timeout).
    split; [exact (trial_trace _ _ _ _ _ _ _ T)|].
    split; [|exact (trial_skipped _ _ _ _ _ _ _ T)].
    unfold evaluated. cbn [filter].
    destruct (too_short blk); cbn [negb]; [reflexivity|].
    apply single_events_screened. }
  induction 1 as [idx st|idx blk rest st e res st' T
                 |idx blk rest st e st1 new won st' T R IH].
  - exists []. now rewrite app_nil_r.
  - destruct (step _ _ _ _ _ _ T) as (evs & E & S & K).
    exists evs. cbn [List.length firstn map]. rewrite K. auto.
  - destruct (step _ _ _ _ _ _ T) as (ev1 & E1 & S1 & K1).
    destruct IH as (ev2 & E2 & S2 & K2).
    exists (ev1 ++ ev2)%list. rewrite E2, E1, <- app_assoc.
    split; [reflexivity|].
    cbn [List.length firstn map]. rewrite K1, K2, screened_codes_app, S1, S2.
    split; [|reflexivity].
    unfold evaluated. cbn [filter].
    now destruct (negb (too_short blk)).
Qed.

(** The batch form of [verify_python] returns the result of the loop's run
    from index 0, and the history in that result is the run's entries. *)
Lemma verify_python_list_run (blocks : list string) (timeout : Z) (st : state) :
  exists new won st',
    loop_run timeout 0 blocks st new won st' /\
    verify_python (CodeList blocks) timeout st
    = (Ok (final_result new won), st') /\
    tried_blocks (final_result new won) = new.
Proof.
  destruct (verify_blocks_run timeout blocks 0 [] st)
    as (new & won & st' & R & E).
  exists new, won, st'. repeat split; auto.
  exact (tried_blocks_final _ _ _ _ _ _ _ _ R).
Qed.

Lemma loop_run_verify_python timeout blocks st new won st' :
  loop_run timeout 0 blocks st new won st' ->
  verify_python (CodeList blocks) timeout st
  = (Ok (final_result new won), st').
Proof.
  intros R.
  destruct (verify_python_list_run blocks timeout st)
    as (new2 & won2 & st2 & R2 & E & _).
  destruct (loop_run_functional _ _ _ _ _ _ _ R _ _ _ R2) as (-> & -> & ->).
  exact E.
Qed.

Lemma unverified_filter (l : list pyval) :
  Forall (fun e => field e "verified" = VBool false) l ->
  filter is_verified l = [].
Proof.
  induction 1 as [|e l He _ IH]; [reflexivity|].
  cbn [filter]. unfold is_verified at 1. now rewrite He.
Qed.

Lemma unverified_nth (l : list pyval) (i : nat) (e : pyval) :
  Forall (fun e => field e "verified" = VBool false) l ->
  nth_error l i = Some e -> is_verified e = false.
Proof.
  intros F H. apply nth_error_In in H.
  rewrite Forall_forall in F. unfold is_verified. now rewrite (F _ H).
Qed.

(** ** The orchestrator's claims *)

(** C1.  In a batch call at most one record of the returned history is
    verified; a verified record is the last one, so no record exists for a
    later candidate; the calls made are one screening per record that was not
    skipped and at most one normalization and execution after each, so a
    candidate without a record was never screened, normalized or executed; and
    whatever follows the verified candidate in the list changes neither the
    result nor the final state. *)
Theorem verify_python_short_circuit
    (blocks : list string) (timeout : Z) (st : state) :
  exists res st' evs,
    verify_python (CodeList blocks) timeout st = (Ok res, st') /\
    (List.length (filter is_verified (tried_blocks res)) <= 1)%nat /\
    (List.length (tried_blocks res) <= List.length blocks)%nat /\
    (forall i e,
        nth_error (tried_blocks res) i = Some e -> is_verified e = true ->
        S i = List.length (tried_blocks res) /\
        PyDict.get res "verified" = VBool true /\
        forall post,
          verify_python (CodeList (blocks ++ post)) timeout st
          = (Ok res, st')) /\
    trace st' = (trace st ++ evs)%list /\
    count is_screened evs = attempted (tried_blocks res) /\
    count is_normalized evs = count is_executed evs /\
    (count is_executed evs <= attempted (tried_blocks res))%nat.
Proof.
  destruct (verify_python_list_run blocks timeout st)
    as (new & won & st' & R & E & Htried).
  destruct (loop_run_trace _ _ _ _ _ _ _ R) as (evs & Ht & Hs & Hn & Hx).
  exists (final_result new won), st', evs. rewrite Htried.
  pose proof (loop_run_verified _ _ _ _ _ _ _ R) as V.
  split; [exact E|]. split; [|split; [|split]].
  - destruct won as [res|].
    + destruct V as (init & last & -> & Hi & Hl).
      rewrite filter_app, (unverified_filter _ Hi). cbn.
      destruct (is_verified last); cbn; lia.
    + rewrite (unverified_filter _ V). cbn. lia.
  - apply (loop_run_length _ _ _ _ _ _ _ R).
  - intros i e Hi He. destruct won as [res|].
    + destruct V as (init & last & -> & Hinit & Hl).
      assert (i = List.length init) as ->.
      { destruct (Nat.lt_ge_cases i (List.length init)) as [Hlt|Hge].
        - rewrite nth_error_app1 in Hi by exact Hlt.
          rewrite (unverified_nth _ _ _ Hinit Hi) in He. discriminate.
        - assert (Hlt : (i < List.length (init ++ [last]))%nat)
            by (apply nth_error_Some; rewrite Hi; discriminate).
          rewrite length_app in Hlt. cbn in Hlt. lia. }
      rewrite length_app. cbn [List.length]. split; [lia|].
      split; [reflexivity|]. intros post.
      apply loop_run_verify_python. now apply loop_run_app_won.
    + rewrite (unverified_nth _ _ _ V Hi) in He. discriminate.
  - auto.
Qed.


(** C7.  A batch call never raises.  When the single-form pipeline raises on
    a candidate the loop has reached, the call still returns; the record at
    that candidate's position is unverified with reason
    [exception_in_verifier] and the error text in its details; and the result
    is the one of the loop carried on over the remaining candidates. *)
Theorem verify_python_catches_faults :
  (forall blocks timeout st,
      exists res st',
        verify_python (CodeList blocks) timeout st = (Ok res, st')) /\
  (forall pre blk post timeout st res1 st1 e st2,
      verify_python (CodeList pre) timeout st = (Ok res1, st1) ->
      PyDict.get res1 "verified" = VBool false ->
      too_short blk = false ->
      _verify_single blk timeout st1 = (Raise e, st2) ->
      let entry :=
        VDict [("index", VInt (Z.of_nat (List.length pre)));
               ("skipped", VBool false); ("verified", VBool false);
               ("reason", VStr "exception_in_verifier");
               ("details", VDict [("error", VStr (str_of_exn e))])] in
      exists res st',
        verify_python (CodeList (pre ++ blk :: post)) timeout st
        = (Ok res, st') /\
        nth_error (tried_blocks res) (List.length pre) = Some entry /\
        verify_blocks timeout (S (List.length pre)) post
          (tried_blocks res1 ++ [entry]) st2
        = (Ok res, st') /\
        (PyDict.get res "verified" = VBool false ->
         List.length (tried_blocks res) = List.length (pre ++ blk :: post))).
Proof.
  split.
  - intros blocks timeout st.
    destruct (verify_python_list_run blocks timeout st)
      as (new & won & st' & _ & E & _).
    now exists (final_result new won), st'.
  - intros pre blk post timeout st res1 st1 e st2 E1 V1 Hshort Hraise entry.
    destruct (verify_python_list_run pre timeout st)
      as (new & won & st1' & R1 & E1' & Htried1).
    rewrite E1 in E1'. injection E1' as -> <-.
    rewrite final_result_verified in V1.
    destruct won as [?|]; [discriminate|].
    rewrite Htried1.
    destruct (loop_run_length _ _ _ _ _ _ _ R1) as [_ Hlen].
    specialize (Hlen eq_refl).
    assert (T : trial timeout (List.length pre) blk st1 = (entry, None, st2)).
    { unfold trial. now rewrite Hshort, Hraise. }
    destruct (verify_blocks_run timeout post (S (List.length pre))
                (new ++ [entry])%list st2)
      as (new2 & won2 & st' & R2 & E2).
    assert (R : loop_run timeout 0 (pre ++ blk :: post) st
                  (new ++ entry :: new2) won2 st').
    { apply loop_run_app_none with st1; [exact R1|].
      cbn [Nat.add]. now apply run_next with st2. }
    exists (final_result (new ++ entry :: new2) won2), st'.
    rewrite (tried_blocks_final _ _ _ _ _ _ _ _ R).
    split; [now apply loop_run_verify_python|].
    split; [|split].
    + rewrite nth_error_app2 by lia.
      rewrite <- Hlen, Nat.sub_diag. reflexivity.
    + rewrite E2, <- app_assoc. reflexivity.
    + rewrite final_result_verified. intros Hv.
      destruct won2 as [?|]; [discriminate|].
      now apply (loop_run_length _ _ _ _ _ _ _ R).
Qed.

(** C9.  On the empty list a batch call returns at once: unverified, reason
    [no_block_verified], an empty history, and the state as it was, so
    nothing was screened, normalized or executed and the host was not
    consulted. *)
Theorem verify_python_empty (timeout : Z) (st : state) :
  exists res,
    verify_python (CodeList []) timeout st = (Ok res, st) /\
    PyDict.get res "verified" = VBool false /\
    PyDict.get res "reason" = VStr "no_block_verified" /\
    tried_blocks res = [].
Proof. eexists. repeat split. Qed.

(** C10.  The history of a batch call is the list of the records of the
    candidates the call evaluated or skipped, in input order, with the indices
    0, 1, ..., n-1.  The candidates reached are the first n of the input: the
    record at position [i] is the one of the candidate at position [i] and
    says whether that candidate was skipped, and the screener was called on
    those of the first n candidates that are not skipped, in order, and on no
    other source.  The number n is the number of candidates when the result
    is unverified; when it is verified, the record at position n-1 is the
    verified one and the records before it are unverified, so the call
    returned at the first candidate that verified. *)
Theorem verify_python_dense_indices
    (blocks : list string) (timeout : Z) (st : state) :
  exists res st' evs,
    verify_python (CodeList blocks) timeout st = (Ok res, st') /\
    map (fun e => field e "index") (tried_blocks res)
    = map (fun i => VInt (Z.of_nat i))
          (seq 0 (List.length (tried_blocks res))) /\
    (List.length (tried_blocks res) <= List.length blocks)%nat /\
    (forall i e,
        nth_error (tried_blocks res) i = Some e ->
        field e "index" = VInt (Z.of_nat i) /\
        exists blk, nth_error blocks i = Some blk /\
                    field e "skipped" = VBool (too_short blk)) /\
    map (fun e => field e "skipped") (tried_blocks res)
    = map (fun blk => VBool (too_short blk))
          (firstn (List.length (tried_blocks res)) blocks) /\
    trace st' = (trace st ++ evs)%list /\
    screened_codes evs
    = evaluated (firstn (List.length (tried_blocks res)) blocks) /\
    (PyDict.get res "verified" = VBool false \/
     PyDict.get res "verified" = VBool true) /\
    (PyDict.get res "verified" = VBool false ->
     List.length (tried_blocks res) = List.length blocks /\
     Forall (fun e => field e "verified" = VBool false) (tried_blocks res)) /\
    (PyDict.get res "verified" = VBool true ->
     exists init last,
       tried_blocks res = (init ++ [last])%list /\
       Forall (fun e => field e "verified" = VBool false) init /\
       field last "verified" = VBool true /\
       field last "skipped" = VBool false).
Proof.
  destruct (verify_python_list_run blocks timeout st)
    as (new & won & st' & R & E & Htried).
  destruct (loop_run_reached _ _ _ _ _ _ _ R) as (evs & Ht & Hs & Hk).
  pose proof (loop_run_verified _ _ _ _ _ _ _ R) as V.
  exists (final_result new won), st', evs. rewrite Htried.
  rewrite final_result_verified.
  split; [exact E|].
  split; [exact (loop_run_indices _ _ _ _ _ _ _ R)|].
  split; [apply (loop_run_length _ _ _ _ _ _ _ R)|].
  split; [intros i e He; exact (loop_run_nth _ _ _ _ _ _ _ R _ _ He)|].
  split; [exact Hk|]. split; [exact Ht|]. split; [exact Hs|].
  destruct won as [res|].
  - split; [now right|]. split; [discriminate|]. intros _.
    destruct V as (init & last & -> & Hi & Hl).
    exists init, last. repeat (split; [assumption || reflexivity|]).
    destruct (loop_run_won_evaluated _ _ _ _ _ _ _ R)
      as (init2 & last2 & Heq & Hk2).
    apply app_inj_tail in Heq. destruct Heq as [_ ->]. exact Hk2.
  - split; [now left|]. split; [|discriminate]. intros _.
    split; [|exact V].
    now apply (loop_run_length _ _ _ _ _ _ _ R).
Qed.

(** ** The single-form pipeline's claims *)

Lemma matched_is_unsafe (code : string) :
  (exists p, In p BLACKLIST /\ Re.search (pat_regex p) code = true) ->
  fst (looks_safe_python code) = false.
Proof.
  intros (p & Hin & Hm). unfold looks_safe_python. cbn [fst].
  rewrite length_map.
  assert (H : In p (filter (fun q => Re.search (pat_regex q) code) BLACKLIST))
    by (apply filter_In; auto).
  destruct (filter (fun q => Re.search (pat_regex q) code) BLACKLIST);
    [destruct H|reflexivity].
Qed.

(** C3, as the code has it.  The pipeline is Screener, Normalizer, Executor:
    the screener is applied to the source as given; a rejected source is
    answered with [static_blacklist_match] and is neither normalized nor
    executed, the host being left alone; an accepted source is normalized and
    the normalized form executed, the host's answer deciding the result. *)
Theorem _verify_single_pipeline (code : string) (timeout : Z) (st : state) :
  trace (snd (_verify_single code timeout st))
  = (trace st ++
     if fst (looks_safe_python code) then
       [Screened code; Normalized code;
        Executed (make_executable_snippet code) timeout]
     else [Screened code])%list /\
  (if fst (looks_safe_python code) then
     fst (_verify_single code timeout st)
     = single_outcome
         (fst (host (world st) (make_executable_snippet code) timeout)) /\
     world (snd (_verify_single code timeout st))
     = snd (host (world st) (make_executable_snippet code) timeout)
   else
     fst (_verify_single code timeout st)
     = Ok [("verified", VBool false);
           ("reason", VStr "static_blacklist_match");
           ("matches", VList (map VStr (snd (looks_safe_python code))))] /\
     world (snd (_verify_single code timeout st)) = world st).
Proof.
  rewrite _verify_single_run. unfold single_events.
  destruct (fst (looks_safe_python code)); cbn [fst snd world trace]; auto.
Qed.

(** C4.  A source matching a blacklist pattern is answered by the single form
    of [verify_python] with [verified = False] and reason
    [static_blacklist_match]; the only call made is the screening, and the
    host is left as it was: no sandbox is started. *)
Theorem verify_python_static_rejection
    (code : string) (timeout : Z) (st : state) :
  (exists p, In p BLACKLIST /\ Re.search (pat_regex p) code = true) ->
  exists res st',
    verify_python (CodeStr code) timeout st = (Ok res, st') /\
    PyDict.get res "verified" = VBool false /\
    PyDict.get res "reason" = VStr "static_blacklist_match" /\
    PyDict.get res "matches" = VList (map VStr (snd (looks_safe_python code))) /\
    trace st' = (trace st ++ [Screened code])%list /\
    count is_executed [Screened code] = 0%nat /\
    world st' = world st.
Proof.
  intros H. apply matched_is_unsafe in H.
  cbn [verify_python]. rewrite _verify_single_run, H.
  unfold single_events. rewrite H.
  eexists _, _. split; [reflexivity|]. repeat split.
Qed.

(** C5, as the code has it.  [run_in_docker] returns a dictionary that is
    fixed by what [subprocess.run] did, and none of its dictionaries has a
    [failure_kind] field.  A process that ran to its end gives [ok] true
    exactly when its exit code is 0, with the trimmed captured output and the
    exit code, and no [error] field: a non-zero exit is told by [return_code]
    alone, also when the exit code is the launcher's own.  A timeout gives
    [ok] false, [error] equal to ["timeout"] and empty output.  Any other
    exception of [subprocess.run] gives [ok] false and the exception's text
    under [error], with no other field.  A failure to create or write the
    temporary file is not classified: it is raised to the caller.  The host is
    consulted once, for the code and timeout given, and the call is recorded
    as one execution. *)
Theorem run_in_docker_outcomes (code : string) (timeout : Z) (st : state) :
  fst (run_in_docker code timeout st)
  = match fst (host (world st) code timeout) with
    | Exited rc out err =>
        Ok [("ok", VBool (Z.eqb rc 0));
            ("stdout", VStr (PyStr.strip out));
            ("stderr", VStr (PyStr.strip err));
            ("return_code", VInt rc)]
    | TimeoutExpired =>
        Ok [("ok", VBool false); ("error", VStr "timeout");
            ("stdout", VStr ""); ("stderr", VStr "")]
    | RunError msg => Ok [("ok", VBool false); ("error", VStr msg)]
    | TempFileError msg => Raise (Exception msg)
    end /\
  (forall d,
      fst (run_in_docker code timeout st) = Ok d ->
      PyDict.lookup "failure_kind" d = None /\
      (PyDict.get d "ok" = VBool true <->
       exists out err,
         fst (host (world st) code timeout) = Exited 0 out err) /\
      (PyDict.get d "ok" = VBool true \/ PyDict.get d "ok" = VBool false) /\
      (PyDict.lookup "return_code" d = None <->
       exists v, PyDict.lookup "error" d = Some v)) /\
  world (snd (run_in_docker code timeout st))
  = snd (host (world st) code timeout) /\
  trace (snd (run_in_docker code timeout st))
  = (trace st ++ [Executed code timeout])%list.
Proof.
  unfold run_in_docker, bind, log; cbn [world trace].
  destruct (host (world st) code timeout) as [[msg|rc out err| |msg] w];
    cbn [fst snd world trace].
  - split; [reflexivity|]. split; [|split; reflexivity].
    intros d H. discriminate.
  - split; [reflexivity|]. split; [|split; reflexivity].
    intros d H. injection H as <-. cbn.
    split; [reflexivity|]. split; [|split].
    + split.
      * intros H. injection H as H. apply Z.eqb_eq in H. subst rc.
        now exists out, err.
      * intros (o & e & H). injection H as -> _ _. reflexivity.
    + destruct (Z.eqb rc 0); [now left|now right].
    + split; [discriminate|]. intros (v & H). discriminate.
  - split; [reflexivity|]. split; [|split; reflexivity].
    intros d H. injection H as <-. cbn.
    split; [reflexivity|]. split; [|split].
    + split; [discriminate|]. intros (o & e & H). discriminate.
    + now right.
    + split; [intros _; eexists; reflexivity|reflexivity].
  - split; [reflexivity|]. split; [|split; reflexivity].
    intros d H. injection H as <-. cbn.
    split; [reflexivity|]. split; [|split].
    + split; [discriminate|]. intros (o & e & H). discriminate.
    + now right.
    + split; [intros _; eexists; reflexivity|reflexivity].
Qed.

(** C2, as the code has it.  The normalizer wraps the trimmed source in
    [print(...)] exactly when the trimmed source holds no line feed, also when
    that one line is already a statement; a source of several lines comes
    back with its trailing whitespace replaced by one line feed. *)
Theorem make_executable_snippet_spec (code : string) :
  make_executable_snippet code
  = if PyStr.contains PyStr.LF (PyStr.strip code)
    then PyStr.rstrip code ++ PyStr.newline
    else "print(" ++ PyStr.strip code ++ ")" ++ PyStr.newline.
Proof.
  unfold make_executable_snippet. rewrite strip_rstrip_newline.
  now destruct (PyStr.contains PyStr.LF (PyStr.strip code)).
Qed.

(** ** What a record keeps of its candidate's verdict *)

Lemma loop_run_nth_trial timeout idx blocks st new won st' :
  loop_run timeout idx blocks st new won st' ->
  forall i e,
    nth_error new i = Some e ->
    exists blk sti woni sti',
      nth_error blocks i = Some blk /\
      trial timeout (idx + i) blk sti = (e, woni, sti').
Proof.
  induction 1 as [|idx blk rest st e res st' T
                 |idx blk rest st e st1 new won st' T R IH]; intros i x Hx.
  - destruct i; discriminate.
  - destruct i as [|i]; [|destruct i; discriminate].
    injection Hx as <-. rewrite Nat.add_0_r.
    exists blk, st, (Some res), st'. auto.
  - destruct i as [|i].
    + injection Hx as <-. rewrite Nat.add_0_r.
      exists blk, st, None, st1. auto.
    + cbn in Hx. rewrite Nat.add_succ_r. exact (IH _ _ Hx).
Qed.

(** The record of a candidate the screener rejected: its [details] is [None]
    and it has no other field, so the matched patterns are not in it. *)
Lemma trial_rejected timeout idx blk st e won st' :
  trial timeout idx blk st = (e, won, st') ->
  too_short blk = false ->
  fst (looks_safe_python blk) = false ->
  e = VDict [("index", VInt (Z.of_nat idx)); ("skipped", VBool false);
             ("verified", VBool false);
             ("reason", VStr "static_blacklist_match");
             ("details", VNone)].
Proof.
  unfold trial. intros T Hs Hu. revert T.
  rewrite Hs, _verify_single_run, Hu. now intros [= <- <- <-].
Qed.

(** The record of a candidate that reached the executor: its [details] is
    the executor's dictionary, or the error text when the pipeline raised. *)
Lemma trial_executed timeout idx blk st e won st' :
  trial timeout idx blk st = (e, won, st') ->
  too_short blk = false ->
  fst (looks_safe_python blk) = true ->
  match fst (run_in_docker (make_executable_snippet blk) timeout st) with
  | Ok d => field e "details" = VDict d
  | Raise ex => field e "details" = VDict [("error", VStr (str_of_exn ex))]
  end.
Proof.
  unfold trial. intros T Hs Hu. revert T.
  rewrite Hs, _verify_single_run, Hu.
  unfold run_in_docker, bind, log; cbn [world trace].
  destruct (host (world st) (make_executable_snippet blk) timeout)
    as [[msg|rc out err| |msg] w]; cbn [fst snd single_outcome];
    [ | destruct (Z.eqb rc 0) | | ]; now intros [= <- <- <-].
Qed.

(** In a batch call, every record of a candidate the screener rejected has
    [details = None]: the patterns it matched are not recorded. *)
Lemma rejected_records_carry_no_matches
    (blocks : list string) (timeout : Z) (st : state) :
  exists res st',
    verify_python (CodeList blocks) timeout st = (Ok res, st') /\
    forall i e blk,
      nth_error (tried_blocks res) i = Some e ->
      nth_error blocks i = Some blk ->
      too_short blk = false ->
      fst (looks_safe_python blk) = false ->
      e = VDict [("index", VInt (Z.of_nat i)); ("skipped", VBool false);
                 ("verified", VBool false);
                 ("reason", VStr "static_blacklist_match");
                 ("details", VNone)].
Proof.
  destruct (verify_python_list_run blocks timeout st)
    as (new & won & st' & R & E & Htried).
  exists (final_result new won), st'. rewrite Htried.
  split; [exact E|]. intros i e blk He Hb Hs Hu.
  destruct (loop_run_nth_trial _ _ _ _ _ _ _ R _ _ He)
    as (blk' & sti & woni & sti' & Hb' & T).
  rewrite Hb in Hb'. injection Hb' as <-.
  exact (trial_rejected _ _ _ _ _ _ _ T Hs Hu).
Qed.

Set Default Proof Using "Type".

(** ** Screening and whitespace *)

Lemma space_is_not_word (c : ascii) :
  PyStr.is_space c = true -> PyStr.is_word c = false.
Proof.
  destruct c as [[] [] [] [] [] [] [] []]; vm_compute; intros H;
    first [reflexivity | discriminate H].
Qed.

Lemma all_chars_impl (f g : ascii -> bool) (s : string) :
  (forall c, f c = true -> g c = true) ->
  all_chars f s = true -> all_chars g s = true.
Proof.
  intros Hfg. induction s as [|c r IH]; cbn; [reflexivity|].
  intros H. apply andb_true_iff in H. destruct H as [Hc Hr].
  now rewrite (Hfg _ Hc), IH.
Qed.

Lemma all_chars_app (f : ascii -> bool) (s t : string) :
  all_chars f (s ++ t) = all_chars f s && all_chars f t.
Proof.
  induction s as [|c r IH]; cbn; [reflexivity|].
  now rewrite IH, andb_assoc.
Qed.

(** A starred atom followed by a continuation that fails on every string of
    rejected characters fails on such a string too. *)
Lemma star_then_rejected (a b : atom)
    (k : option ascii -> string -> bool) :
  (forall prev t,
      all_chars (fun c => negb (atom_matches a c)) t = true ->
      k prev t = false) ->
  forall t prev,
    all_chars (fun c => negb (atom_matches a c)) t = true ->
    star_then b k prev t = false.
Proof.
  intros Hk. induction t as [|c r IH]; intros prev Ht; cbn.
  - now rewrite Hk.
  - rewrite (Hk _ _ Ht). cbn in Ht. apply andb_true_iff in Ht.
    destruct Ht as [_ Hr]. rewrite (IH _ Hr). now rewrite andb_false_r.
Qed.

(** A pattern that ends with one character of [a] does not match inside a
    string made of characters [a] rejects. *)
Lemma match_here_rejected (a : atom) (p : regex) :
  ends_with_one a p ->
  forall prev t,
    all_chars (fun c => negb (atom_matches a c)) t = true ->
    match_here p prev t = false.
Proof.
  induction 1 as [|i p E IH]; intros prev t Ht.
  - destruct t as [|c r]; cbn; [reflexivity|].
    cbn in Ht. apply andb_true_iff in Ht. destruct Ht as [Hc _].
    apply negb_true_iff in Hc. now rewrite Hc.
  - destruct i as [|b|b|b]; cbn [match_here].
    + now rewrite (IH _ _ Ht), andb_false_r.
    + destruct t as [|c r]; [reflexivity|].
      cbn in Ht. apply andb_true_iff in Ht. destruct Ht as [_ Hr].
      now rewrite (IH _ _ Hr), andb_false_r.
    + now apply (star_then_rejected a b _ IH).
    + destruct t as [|c r]; [reflexivity|].
      cbn in Ht. apply andb_true_iff in Ht. destruct Ht as [_ Hr].
      now rewrite (star_then_rejected a b _ IH _ _ Hr), andb_false_r.
Qed.

Lemma search_from_rejected (a : atom) (p : regex) :
  ends_with_one a p ->
  forall t prev,
    all_chars (fun c => negb (atom_matches a c)) t = true ->
    search_from p prev t = false.
Proof.
  intros E. induction t as [|c r IH]; intros prev Ht; cbn.
  - now rewrite (match_here_rejected a p E).
  - rewrite (match_here_rejected a p E _ _ Ht).
    cbn in Ht. apply andb_true_iff in Ht. destruct Ht as [_ Hr].
    now rewrite (IH _ Hr).
Qed.

Lemma star_then_app_rejected (a b : atom)
    (k : option ascii -> string -> bool) (post : string) :
  all_chars (fun c => negb (atom_matches a c)) post = true ->
  (forall prev t,
      all_chars (fun c => negb (atom_matches a c)) t = true ->
      k prev t = false) ->
  (forall prev s, k prev (s ++ post) = k prev s) ->
  forall s prev, star_then b k prev (s ++ post) = star_then b k prev s.
Proof.
  intros Hpost Hk Happ. induction s as [|c r IH]; intros prev.
  - cbn [append]. rewrite (star_then_rejected a b k Hk _ _ Hpost).
    cbn. now rewrite Hk.
  - change (String c r ++ post) with (String c (r ++ post)).
    cbn [star_then].
    change (String c (r ++ post)) with (String c r ++ post).
    now rewrite Happ, IH.
Qed.

(** Rejected characters behind a string do not change whether the pattern
    matches at a position of it. *)
Lemma match_here_app_rejected (a : atom) (p : regex) (post : string) :
  ends_with_one a p ->
  all_chars (fun c => negb (atom_matches a c)) post = true ->
  forall prev s, match_here p prev (s ++ post) = match_here p prev s.
Proof.
  intros E Hpost. induction E as [|i p E IH]; intros prev s.
  - destruct s as [|c r]; cbn; [|reflexivity].
    destruct post as [|c r]; [reflexivity|].
    cbn in Hpost. apply andb_true_iff in Hpost. destruct Hpost as [Hc _].
    apply negb_true_iff in Hc. now rewrite Hc.
  - pose proof (match_here_rejected a p E) as Hrej.
    destruct i as [|b|b|b].
    + cbn [match_here]. rewrite IH. destruct s as [|c r]; [|reflexivity].
      now rewrite (Hrej prev EmptyString eq_refl), !andb_false_r.
    + destruct s as [|c r]; cbn [append match_here].
      * destruct post as [|c r]; [reflexivity|].
        cbn in Hpost. apply andb_true_iff in Hpost.
        destruct Hpost as [_ Hr].
        now rewrite (Hrej _ _ Hr), andb_false_r.
      * now rewrite IH.
    + cbn [match_here].
      now apply (star_then_app_rejected a b _ post Hpost Hrej IH).
    + destruct s as [|c r]; cbn [append match_here].
      * destruct post as [|c r]; [reflexivity|].
        cbn in Hpost. apply andb_true_iff in Hpost.
        destruct Hpost as [_ Hr].
        now rewrite (star_then_rejected a b _ Hrej _ _ Hr), andb_false_r.
      * now rewrite (star_then_app_rejected a b _ post Hpost Hrej IH).
Qed.

Lemma search_from_app_rejected (a : atom) (p : regex) (post : string) :
  ends_with_one a p ->
  all_chars (fun c => negb (atom_matches a c)) post = true ->
  forall s prev, search_from p prev (s ++ post) = search_from p prev s.
Proof.
  intros E Hpost. induction s as [|c r IH]; intros prev.
  - cbn [append]. rewrite (search_from_rejected a p E _ _ Hpost).
    cbn. now rewrite (match_here_rejected a p E prev EmptyString eq_refl).
  - change (String c r ++ post) with (String c (r ++ post)).
    cbn [search_from].
    change (String c (r ++ post)) with (String c r ++ post).
    now rewrite (match_here_app_rejected a p post E Hpost), IH.
Qed.

(** The character before a position matters only through [\b]. *)
Lemma match_here_prev (p : regex) :
  forall prev prev' s,
    word_before prev = word_before prev' ->
    match_here p prev s = match_here p prev' s.
Proof.
  induction p as [|i p IH]; intros prev prev' s H; [reflexivity|].
  destruct i as [|b|b|b]; cbn [match_here]; try reflexivity.
  - unfold at_boundary. now rewrite H, (IH _ _ _ H).
  - destruct s as [|c r]; cbn [star_then]; now rewrite (IH _ _ _ H).
Qed.

Lemma search_from_prev (p : regex) (prev prev' : option ascii) (s : string) :
  word_before prev = word_before prev' ->
  search_from p prev s = search_from p prev' s.
Proof.
  intros H. destruct s as [|c r]; cbn [search_from];
    now rewrite (match_here_prev p _ _ _ H).
Qed.

(** A pattern that opens with [\b] and the word character [w] cannot start
    where [\b] fails or another character stands. *)
Lemma match_here_start (w : ascii) (rest : regex)
    (prev : option ascii) (c : ascii) (r : string) :
  at_boundary prev (String c r) = false \/ Ascii.eqb c w = false ->
  match_here (WordBoundary :: One (Lit w) :: rest) prev (String c r) = false.
Proof.
  intros [H|H]; cbn [match_here atom_matches]; rewrite H;
    [reflexivity|now rewrite andb_false_r].
Qed.

(** Expose the shape that [starts_with_word] asserts. *)
Ltac open_pattern p Hp w rest :=
  destruct p as [|[| | |] [|[|[w| | |]| |] rest]]; try discriminate Hp.

Lemma search_from_skip_space (p : regex) (c : ascii) (r : string)
    (prev : option ascii) :
  starts_with_word p = true ->
  PyStr.is_space c = true ->
  search_from p prev (String c r) = search_from p None r.
Proof.
  intros Hp Hc. open_pattern p Hp w rest.
  cbn in Hp. apply andb_true_iff in Hp. destruct Hp as [Hw _].
  cbn [search_from]. rewrite match_here_start.
  - cbn [orb]. apply search_from_prev. cbn.
    now apply space_is_not_word.
  - right. destruct (Ascii.eqb_spec c w) as [->|]; [|reflexivity].
    rewrite (space_is_not_word _ Hc) in Hw. discriminate.
Qed.

Lemma search_lstrip (p : regex) (s : string) :
  starts_with_word p = true ->
  search p (PyStr.lstrip s) = search p s.
Proof.
  intros Hp. unfold search. induction s as [|c r IH]; [reflexivity|].
  cbn [PyStr.lstrip]. destruct (PyStr.is_space c) eqn:Hc; [|reflexivity].
  now rewrite IH, (search_from_skip_space p c r None Hp Hc).
Qed.

(** A string is its right-trimmed part followed by whitespace. *)
Lemma rstrip_split (s : string) :
  exists ws, s = PyStr.rstrip s ++ ws /\ all_chars PyStr.is_space ws = true.
Proof.
  induction s as [|c r (ws & E & Hws)].
  - now exists EmptyString.
  - cbn [PyStr.rstrip]. destruct (PyStr.rstrip r) as [|d r'] eqn:Er.
    + cbn in E. subst r. destruct (PyStr.is_space c) eqn:Hc.
      * exists (String c ws). cbn. now rewrite Hc, Hws.
      * now exists ws.
    + exists ws. split; [|exact Hws]. cbn. now rewrite E at 1.
Qed.

Lemma padding_rejected (a : atom) (ws : string) :
  (forall c, is_padding c = true -> atom_matches a c = false) ->
  all_chars is_padding ws = true ->
  all_chars (fun c => negb (atom_matches a c)) ws = true.
Proof.
  intros Ha. apply all_chars_impl. intros c Hc. now rewrite (Ha _ Hc).
Qed.

Lemma search_rstrip (p : regex) (s : string) :
  well_shaped p -> search p (PyStr.rstrip s) = search p s.
Proof.
  intros (_ & a & E & Ha). destruct (rstrip_split s) as (ws & Es & Hws).
  rewrite Es at 2. unfold search. symmetry.
  apply (search_from_app_rejected a p ws E).
  apply (padding_rejected a ws Ha).
  revert Hws. apply all_chars_impl. intros c Hc. unfold is_padding.
  now rewrite Hc.
Qed.

Lemma search_strip (p : regex) (s : string) :
  well_shaped p -> search p (PyStr.strip s) = search p s.
Proof.
  intros W. unfold PyStr.strip.
  rewrite (search_rstrip p _ W). apply search_lstrip. apply W.
Qed.

(** The wrapper [print(...)] neither hides a match nor creates one. *)
Lemma search_wrapped (p : regex) (t : string) :
  well_shaped p ->
  search p ("print(" ++ t ++ ")" ++ PyStr.newline) = search p t.
Proof.
  intros (Hp & a & E & Ha). unfold search.
  transitivity (search_from p None (t ++ ")" ++ PyStr.newline)).
  - open_pattern p Hp w rest.
    cbn in Hp. apply andb_true_iff in Hp. destruct Hp as [Hw Hnp].
    apply negb_true_iff in Hnp.
    assert (Hparen : Ascii.eqb "(" w = false).
    { destruct (Ascii.eqb_spec "("%char w) as [<-|]; [|reflexivity].
      discriminate Hw. }
    assert (Hpw : Ascii.eqb "p" w = false) by now rewrite Ascii.eqb_sym.
    cbn [append]. cbn [search_from].
    rewrite !match_here_start;
      [ | first [ left; reflexivity | right; assumption ] .. ].
    cbn [orb]. now apply search_from_prev.
  - apply (search_from_app_rejected a p _ E).
    apply (padding_rejected a _ Ha). reflexivity.
Qed.

Lemma search_newline (p : regex) (s : string) :
  well_shaped p -> search p (s ++ PyStr.newline) = search p s.
Proof.
  intros (_ & a & E & Ha). unfold search.
  apply (search_from_app_rejected a p _ E).
  apply (padding_rejected a _ Ha). reflexivity.
Qed.

Lemma padding_not_literal (c d : ascii) :
  is_padding d = false -> is_padding c = true -> Ascii.eqb c d = false.
Proof.
  intros Hd Hc. destruct (Ascii.eqb_spec c d) as [->|]; [|reflexivity].
  now rewrite Hd in Hc.
Qed.

Lemma blacklist_well_shaped :
  Forall (fun p => well_shaped (pat_regex p)) BLACKLIST.
Proof.
  assert (Hq : forall c, is_padding c = true ->
                         atom_matches (OneOf [sq; dq]) c = false).
  { intros c Hc. cbn [atom_matches existsb].
    rewrite (padding_not_literal c sq eq_refl Hc).
    now rewrite (padding_not_literal c dq eq_refl Hc). }
  unfold BLACKLIST.
  repeat (apply Forall_cons || apply Forall_nil);
    (split; [reflexivity|]); cbn [pat_regex].
  - exists (Lit "("). split; [repeat constructor|].
    intros c Hc. cbn. now apply padding_not_literal.
  - exists (Lit "."). split; [repeat constructor|].
    intros c Hc. cbn. now apply padding_not_literal.
  - exists (Lit "("). split; [repeat constructor|].
    intros c Hc. cbn. now apply padding_not_literal.
  - exists (Lit "("). split; [repeat constructor|].
    intros c Hc. cbn. now apply padding_not_literal.
  - exists (OneOf [sq; dq]). split; [repeat constructor|exact Hq].
  - exists (Lit "."). split; [repeat constructor|].
    intros c Hc. cbn. now apply padding_not_literal.
  - exists (Lit "."). split; [repeat constructor|].
    intros c Hc. cbn. now apply padding_not_literal.
  - exists (Lit "."). split; [repeat constructor|].
    intros c Hc. cbn. now apply padding_not_literal.
Qed.

Lemma looks_safe_python_ext (s t : string) :
  (forall p, well_shaped p -> search p s = search p t) ->
  looks_safe_python s = looks_safe_python t.
Proof.
  intros H. unfold looks_safe_python.
  assert (E : filter (fun p => search (pat_regex p) s) BLACKLIST
              = filter (fun p => search (pat_regex p) t) BLACKLIST).
  { apply filter_ext_in. intros p Hp. apply H.
    exact (proj1 (Forall_forall _ _) blacklist_well_shaped p Hp). }
  now rewrite E.
Qed.

(** ** Further facts about the screener and the normalizer *)

Lemma make_executable_snippet_run (code : string) :
  make_executable_snippet code
  = if PyStr.contains PyStr.LF (PyStr.strip code)
    then PyStr.rstrip code ++ PyStr.newline
    else "print(" ++ PyStr.strip code ++ ")" ++ PyStr.newline.
Proof.
  unfold make_executable_snippet. rewrite strip_rstrip_newline.
  now destruct (PyStr.contains PyStr.LF (PyStr.strip code)).
Qed.

(** X1.  Normalizing a source does not change what the screener finds in
    it: screening before the normalizer, as the pipeline does, gives the
    verdict and the matches that screening the normalized form would. *)
Theorem screening_commutes_with_normalizing (code : string) :
  looks_safe_python (make_executable_snippet code) = looks_safe_python code.
Proof.
  apply looks_safe_python_ext. intros p W.
  rewrite make_executable_snippet_run.
  destruct (PyStr.contains PyStr.LF (PyStr.strip code)).
  - now rewrite (search_newline p _ W), (search_rstrip p _ W).
  - now rewrite (search_wrapped p _ W), (search_strip p _ W).
Qed.

(** X2.  Whitespace around a source does not change the screener's verdict
    or matches. *)
Theorem screening_ignores_surrounding_whitespace (code : string) :
  looks_safe_python (PyStr.strip code) = looks_safe_python code.
Proof.
  apply looks_safe_python_ext. intros p W. now apply search_strip.
Qed.

Lemma NoDup_map_filter {A B} (g : A -> B) (f : A -> bool) (l : list A) :
  NoDup (map g l) -> NoDup (map g (filter f l)).
Proof.
  induction l as [|x l IH]; cbn; [auto|].
  intros H. inversion H as [|? ? Hx Hl]; subst.
  destruct (f x); cbn; auto. constructor; auto.
  intros Hin. apply Hx. apply in_map_iff in Hin.
  destruct Hin as (y & Ey & Hy). apply filter_In in Hy.
  apply in_map_iff. exists y. split; [exact Ey|apply Hy].
Qed.

Lemma NoDup_map_injective {A B} (g : A -> B) (l : list A) (x y : A) :
  NoDup (map g l) -> In x l -> In y l -> g x = g y -> x = y.
Proof.
  induction l as [|z l IH]; cbn; [intros _ []|].
  intros H Hx Hy E. inversion H as [|? ? Hz Hl]; subst.
  destruct Hx as [->|Hx], Hy as [->|Hy]; auto.
  - exfalso. apply Hz. rewrite E. now apply in_map.
  - exfalso. apply Hz. rewrite <- E. now apply in_map.
Qed.

Lemma blacklist_texts_distinct : NoDup (map pat_text BLACKLIST).
Proof.
  cbn. repeat constructor; cbn; intros H;
    repeat (destruct H as [H|H]; [discriminate H|]); exact H.
Qed.

(** X3.  The screener's verdict: the source is reported safe exactly when no
    pattern is reported; a blacklist pattern is reported exactly when it is
    found in the source, so every match is reported and not only the first;
    and no pattern is reported twice. *)
Theorem looks_safe_python_reports_every_match (code : string) :
  (fst (looks_safe_python code) = true <-> snd (looks_safe_python code) = []) /\
  (forall p,
      In p BLACKLIST ->
      (In (pat_text p) (snd (looks_safe_python code))
       <-> search (pat_regex p) code = true)) /\
  NoDup (snd (looks_safe_python code)).
Proof.
  unfold looks_safe_python; cbn [fst snd]. split; [|split].
  - destruct (map pat_text _); cbn; split; intros H; congruence.
  - intros p Hp. rewrite in_map_iff. split.
    + intros (q & E & Hq). apply filter_In in Hq. destruct Hq as [Hq Hm].
      now rewrite <- (NoDup_map_injective pat_text BLACKLIST q p
                        blacklist_texts_distinct Hq Hp E).
    + intros Hm. exists p. split; [reflexivity|]. now apply filter_In.
  - apply NoDup_map_filter. exact blacklist_texts_distinct.
Qed.

Lemma rstrip_all_space (ws : string) :
  all_chars PyStr.is_space ws = true -> PyStr.rstrip ws = EmptyString.
Proof.
  induction ws as [|c r IH]; cbn; [reflexivity|].
  intros H. apply andb_true_iff in H. destruct H as [Hc Hr].
  now rewrite (IH Hr), Hc.
Qed.

Lemma rstrip_app_all_space (s ws : string) :
  all_chars PyStr.is_space ws = true ->
  PyStr.rstrip (s ++ ws) = PyStr.rstrip s.
Proof.
  intros H. induction s as [|c r IH]; cbn.
  - now apply rstrip_all_space.
  - now rewrite IH.
Qed.

Lemma rstrip_nonempty_fixed (s : string) (c : ascii) :
  PyStr.is_space c = false ->
  PyStr.rstrip (s ++ String c EmptyString) = s ++ String c EmptyString.
Proof.
  intros Hc. induction s as [|a r IH]; cbn.
  - now rewrite Hc.
  - rewrite IH. destruct r; reflexivity.
Qed.

Lemma contains_app (c : ascii) (s t : string) :
  PyStr.contains c (s ++ t) = PyStr.contains c s || PyStr.contains c t.
Proof.
  induction s as [|a r IH]; cbn; [reflexivity|].
  now rewrite IH, orb_assoc.
Qed.

Lemma contains_rstrip (c : ascii) (s : string) :
  PyStr.contains c (PyStr.rstrip s) = true -> PyStr.contains c s = true.
Proof.
  destruct (rstrip_split s) as (ws & E & _). intros H.
  rewrite E, contains_app, H. reflexivity.
Qed.

Lemma strip_nonempty_of_contains (c : ascii) (s : string) :
  PyStr.contains c (PyStr.strip s) = true -> PyStr.rstrip s <> EmptyString.
Proof.
  unfold PyStr.strip. rewrite <- lstrip_rstrip_comm.
  intros H E. rewrite E in H. discriminate H.
Qed.

Lemma string_app_assoc (a b c : string) : (a ++ b) ++ c = a ++ (b ++ c).
Proof. induction a as [|x a IH]; cbn; [reflexivity|now rewrite IH]. Qed.

(** X4.  The normalizer's result is never empty and ends with exactly one
    line feed: it is a body that does not end in whitespace, followed by the
    line feed. *)
Theorem make_executable_snippet_ends_with_newline (code : string) :
  exists body,
    make_executable_snippet code = body ++ PyStr.newline /\
    PyStr.rstrip body = body /\
    body <> EmptyString.
Proof.
  rewrite make_executable_snippet_run.
  destruct (PyStr.contains PyStr.LF (PyStr.strip code)) eqn:E.
  - exists (PyStr.rstrip code). split; [reflexivity|].
    split; [apply rstrip_idempotent|].
    exact (strip_nonempty_of_contains _ _ E).
  - exists ("print(" ++ PyStr.strip code ++ ")"). split.
    + now rewrite !string_app_assoc.
    + split; [|discriminate].
      rewrite <- string_app_assoc.
      now apply rstrip_nonempty_fixed.
Qed.

Lemma rstrip_app_newline (s : string) :
  PyStr.rstrip (s ++ PyStr.newline) = PyStr.rstrip s.
Proof. exact (rstrip_app_space s PyStr.LF is_space_LF). Qed.

(** X5.  Normalizing twice: on a source of several lines the second pass
    changes nothing; on a one-line source it wraps the wrapped form in
    another [print]. *)
Theorem make_executable_snippet_twice (code : string) :
  make_executable_snippet (make_executable_snippet code)
  = if PyStr.contains PyStr.LF (PyStr.strip code)
    then make_executable_snippet code
    else "print(" ++ ("print(" ++ PyStr.strip code ++ ")") ++ ")"
         ++ PyStr.newline.
Proof.
  rewrite (make_executable_snippet_run code).
  destruct (PyStr.contains PyStr.LF (PyStr.strip code)) eqn:E.
  - rewrite make_executable_snippet_run, strip_rstrip_newline, E.
    now rewrite rstrip_app_newline, rstrip_idempotent.
  - assert (B : "print(" ++ PyStr.strip code ++ ")" ++ PyStr.newline
                = ("print(" ++ PyStr.strip code ++ ")") ++ PyStr.newline)
      by now rewrite !string_app_assoc.
    rewrite B, make_executable_snippet_run.
    assert (S : forall t,
               PyStr.strip (("print(" ++ t ++ ")") ++ PyStr.newline)
               = "print(" ++ t ++ ")").
    { intros t. unfold PyStr.strip.
      replace (PyStr.lstrip (("print(" ++ t ++ ")") ++ PyStr.newline))
        with (("print(" ++ t ++ ")") ++ PyStr.newline) by reflexivity.
      rewrite rstrip_app_newline.
      rewrite <- string_app_assoc. now apply rstrip_nonempty_fixed. }
    rewrite S, !contains_app, E. reflexivity.
Qed.

(** ** Further facts about the orchestrator *)

(** X6.  What the single form's answer means: it is verified exactly when
    the screener accepts the source and the sandbox process for the
    normalized source exits with code 0, whatever it printed; and the call
    raises exactly when the screener accepts the source and the temporary
    file cannot be written. *)
Theorem single_form_verdict (code : string) (timeout : Z) (st : state) :
  ((exists res,
       fst (verify_python (CodeStr code) timeout st) = Ok res /\
       PyDict.get res "verified" = VBool true)
   <-> (fst (looks_safe_python code) = true /\
        exists out err,
          fst (host (world st) (make_executable_snippet code) timeout)
          = Exited 0 out err)) /\
  ((exists e, fst (verify_python (CodeStr code) timeout st) = Raise e)
   <-> (fst (looks_safe_python code) = true /\
        exists msg,
          fst (host (world st) (make_executable_snippet code) timeout)
          = TempFileError msg)).
Proof.
  cbn [verify_python]. rewrite _verify_single_run.
  destruct (fst (looks_safe_python code)); cbn [fst].
  - destruct (fst (host (world st) (make_executable_snippet code) timeout))
      as [msg|rc out err| |msg]; cbn [single_outcome].
    + split; split.
      * intros (res & E & _). discriminate E.
      * intros (_ & out & err & E). discriminate E.
      * intros _. split; [reflexivity|]. now exists msg.
      * intros _. now eexists.
    + destruct (Z.eqb_spec rc 0) as [->|Hrc]; split; split.
      * intros _. split; [reflexivity|]. now exists out, err.
      * intros _. eexists. split; reflexivity.
      * intros (e & E). discriminate E.
      * intros (_ & msg & E). discriminate E.
      * intros (res & [= <-] & V). discriminate V.
      * intros (_ & o & e & [= E _ _]). contradiction.
      * intros (e & E). discriminate E.
      * intros (_ & msg & E). discriminate E.
    + split; split.
      * intros (res & [= <-] & V). discriminate V.
      * intros (_ & o & e & E). discriminate E.
      * intros (e & E). discriminate E.
      * intros (_ & m & E). discriminate E.
    + split; split.
      * intros (res & [= <-] & V). discriminate V.
      * intros (_ & o & e & E). discriminate E.
      * intros (e & E). discriminate E.
      * intros (_ & m & E). discriminate E.
  - split; split.
    + intros (res & [= <-] & V). discriminate V.
    + intros (E & _). discriminate E.
    + intros (e & E). discriminate E.
    + intros (E & _). discriminate E.
Qed.

Lemma trial_unrunnable timeout idx blk st e won st' :
  too_short blk = true \/ fst (looks_safe_python blk) = false ->
  trial timeout idx blk st = (e, won, st') ->
  won = None /\ world st' = world st /\
  trace st' = (trace st ++
               if too_short blk then [] else [Screened blk])%list.
Proof.
  unfold trial. intros H. destruct (too_short blk) eqn:Hs.
  - intros [= <- <- <-]. now rewrite app_nil_r.
  - destruct H as [H|H]; [discriminate H|].
    rewrite _verify_single_run, H. unfold single_events. rewrite H.
    now intros [= <- <- <-].
Qed.

Lemma loop_run_unrunnable timeout idx blocks st new won st' :
  loop_run timeout idx blocks st new won st' ->
  Forall (fun blk => too_short blk = true \/
                     fst (looks_safe_python blk) = false) blocks ->
  won = None /\ world st' = world st /\
  trace st'
  = (trace st ++
     map Screened (filter (fun blk => negb (too_short blk)) blocks))%list.
Proof.
  induction 1 as [idx st|idx blk rest st e res st' T
                 |idx blk rest st e st1 new won st' T R IH]; intros F.
  - now rewrite app_nil_r.
  - inversion F as [|? ? Hb _]; subst.
    destruct (trial_unrunnable _ _ _ _ _ _ _ Hb T) as ([=] & _).
  - inversion F as [|? ? Hb Hrest]; subst.
    destruct (trial_unrunnable _ _ _ _ _ _ _ Hb T) as (_ & Hw & Ht).
    destruct (IH Hrest) as (-> & Hw' & Ht').
    split; [reflexivity|]. split; [congruence|].
    rewrite Ht', Ht, <- app_assoc. cbn [filter].
    destruct (too_short blk); reflexivity.
Qed.

(** X7.  A batch in which every candidate is too short or rejected by the
    screener starts no sandbox: the host is left as it was, the only calls
    are the screenings of the candidates that were not skipped, and the
    answer is [no_block_verified]. *)
Theorem batch_without_runnable_candidate
    (blocks : list string) (timeout : Z) (st : state) :
  Forall (fun blk => too_short blk = true \/
                     fst (looks_safe_python blk) = false) blocks ->
  exists res st',
    verify_python (CodeList blocks) timeout st = (Ok res, st') /\
    PyDict.get res "reason" = VStr "no_block_verified" /\
    world st' = world st /\
    trace st'
    = (trace st ++
       map Screened (filter (fun blk => negb (too_short blk)) blocks))%list.
Proof.
  intros F.
  destruct (verify_python_list_run blocks timeout st)
    as (new & won & st' & R & E & _).
  destruct (loop_run_unrunnable _ _ _ _ _ _ _ R F) as (-> & Hw & Ht).
  exists (final_result new None), st'. auto.
Qed.

Lemma trial_reindexed timeout idx idx2 blk st e won st' :
  trial timeout idx blk st = (e, won, st') ->
  exists e2,
    trial timeout idx2 blk st = (e2, won, st') /\
    field e2 "skipped" = field e "skipped".
Proof.
  unfold trial. destruct (too_short blk).
  - intros [= <- <- <-]. eexists. split; reflexivity.
  - destruct (_verify_single blk timeout st) as [[res|ex] st1];
      intros [= <- <- <-]; eexists; split; reflexivity.
Qed.

Lemma final_result_reason (tried tried2 : list pyval) (won : option dict) :
  PyDict.get (final_result tried won) "reason"
  = PyDict.get (final_result tried2 won) "reason".
Proof. destruct won; reflexivity. Qed.

Lemma loop_run_without_short timeout idx blocks st new won st' :
  loop_run timeout idx blocks st new won st' ->
  forall idx2,
  exists new2,
    loop_run timeout idx2 (filter (fun blk => negb (too_short blk)) blocks)
      st new2 won st' /\
    List.length new2 = attempted new.
Proof.
  induction 1 as [idx st|idx blk rest st e res st' T
                 |idx blk rest st e st1 new won st' T R IH]; intros idx2.
  - exists []. split; [constructor|reflexivity].
  - pose proof (trial_skipped _ _ _ _ _ _ _ T) as Hs.
    destruct (trial_reindexed _ _ idx2 _ _ _ _ _ T) as (e2 & T2 & _).
    cbn [filter]. destruct (too_short blk) eqn:Hshort; cbn [negb].
    + unfold trial in T. rewrite Hshort in T. discriminate T.
    + exists [e2]. split; [now apply run_won|].
      unfold attempted, is_skipped. cbn [filter]. now rewrite Hs.
  - pose proof (trial_skipped _ _ _ _ _ _ _ T) as Hs.
    destruct (trial_reindexed _ _ idx2 _ _ _ _ _ T) as (e2 & T2 & _).
    cbn [filter]. destruct (too_short blk) eqn:Hshort; cbn [negb].
    + unfold trial in T. rewrite Hshort in T. injection T as <- <-.
      destruct (IH idx2) as (new2 & R2 & L2).
      exists new2. split; [exact R2|].
      unfold attempted in *. cbn [filter]. exact L2.
    + destruct (IH (S idx2)) as (new2 & R2 & L2).
      exists (e2 :: new2). split; [now apply run_next with st1|].
      unfold attempted in *. unfold is_skipped at 1. cbn [filter].
      rewrite Hs. cbn. now rewrite L2.
Qed.

(** X8.  Candidates that are too short are transparent: dropping them from
    the list gives the same verdict, the same reason and the same final
    state, and leaves one record for each candidate that was attempted. *)
Theorem too_short_candidates_are_transparent
    (blocks : list string) (timeout : Z) (st : state) :
  exists res res2 st',
    verify_python (CodeList blocks) timeout st = (Ok res, st') /\
    verify_python
      (CodeList (filter (fun blk => negb (too_short blk)) blocks)) timeout st
    = (Ok res2, st') /\
    PyDict.get res2 "verified" = PyDict.get res "verified" /\
    PyDict.get res2 "reason" = PyDict.get res "reason" /\
    List.length (tried_blocks res2) = attempted (tried_blocks res).
Proof.
  destruct (verify_python_list_run blocks timeout st)
    as (new & won & st' & R & E & Htried).
  destruct (loop_run_without_short _ _ _ _ _ _ _ R 0%nat) as (new2 & R2 & L).
  exists (final_result new won), (final_result new2 won), st'.
  rewrite Htried, (tried_blocks_final _ _ _ _ _ _ _ _ R2).
  split; [exact E|]. split; [now apply loop_run_verify_python|].
  rewrite !final_result_verified. split; [reflexivity|].
  split; [apply final_result_reason|exact L].
Qed.

(** X9.  A batch of one candidate that is not too short agrees with the
    single form: when the single form returns, the batch returns from the
    same final state with the same verdict, its one record holds the single
    form's verdict, reason and details, and a verified batch result carries
    the single form's reason. *)
Theorem batch_of_one_agrees_with_single_form
    (s : string) (timeout : Z) (st st1 : state) (r : dict) :
  too_short s = false ->
  verify_python (CodeStr s) timeout st = (Ok r, st1) ->
  exists res e,
    verify_python (CodeList [s]) timeout st = (Ok res, st1) /\
    PyDict.get res "verified" = PyDict.get r "verified" /\
    tried_blocks res = [e] /\
    field e "index" = VInt 0 /\
    field e "verified" = PyDict.get r "verified" /\
    field e "reason" = PyDict.get r "reason" /\
    field e "details" = PyDict.get r "details" /\
    (PyDict.get r "verified" = VBool true ->
     PyDict.get res "reason" = PyDict.get r "reason").
Proof.
  intros Hs E. cbn [verify_python] in *.
  rewrite verify_blocks_cons. unfold trial. rewrite Hs, E.
  revert E. rewrite _verify_single_run.
  destruct (fst (looks_safe_python s)).
  - destruct (fst (host (world st) (make_executable_snippet s) timeout))
      as [msg|rc out err| |msg]; cbn [single_outcome];
      [ | destruct (Z.eqb rc 0) | | ]; intros [= <- <-]; cbn;
      eexists _, _; repeat split; intros H; discriminate H.
  - intros [= <- <-]; cbn. eexists _, _; repeat split.
    intros H; discriminate H.
Qed.

(** X10.  The length filter belongs to the batch form only: a string that is
    too short is skipped in a list, with no call made, while given on its own
    it is screened like any other. *)
Theorem length_filter_only_in_batch
    (s : string) (timeout : Z) (st : state) :
  too_short s = true ->
  verify_python (CodeList [s]) timeout st
  = (Ok [("verified", VBool false); ("reason", VStr "no_block_verified");
         ("details",
          VDict [("tried_blocks",
                  VList [VDict [("index", VInt 0); ("skipped", VBool true);
                                ("verified", VBool false);
                                ("reason", VStr "too_short");
                                ("details", VNone)]])])], st) /\
  exists evs,
    trace (snd (verify_python (CodeStr s) timeout st))
    = (trace st ++ Screened s :: evs)%list.
Proof.
  intros Hs. split.
  - cbn [verify_python verify_blocks]. now rewrite Hs.
  - cbn [verify_python]. rewrite _verify_single_run. unfold single_events.
    destruct (fst (looks_safe_python s)); cbn [snd trace]; eexists;
      reflexivity.
Qed.

Lemma trial_won_shape timeout idx blk st e res st' :
  trial timeout idx blk st = (e, Some res, st') ->
  exists out err,
    let d := [("ok", VBool true); ("stdout", VStr out);
              ("stderr", VStr err); ("return_code", VInt 0)] in
    res = [("verified", VBool true); ("reason", VStr "docker_passed");
           ("details", VDict d)] /\
    field e "details" = VDict d /\
    field e "reason" = VStr "docker_passed".
Proof.
  trial_cases blk timeout st; try (intros [= ? ? ?]; discriminate).
  match goal with H : Z.eqb _ 0 = true |- _ => apply Z.eqb_eq in H; subst end.
  intros [= <- <- <-]. eexists _, _. repeat split.
Qed.

Lemma loop_run_last timeout idx blocks st new res st' :
  loop_run timeout idx blocks st new (Some res) st' ->
  exists init e i blk sti,
    new = (init ++ [e])%list /\
    trial timeout i blk sti = (e, Some res, st').
Proof.
  intros R. remember (Some res) as won eqn:W. revert W.
  induction R as [idx st|idx blk rest st e res' st' T
                 |idx blk rest st e st1 new won st' T R IH]; intros W.
  - discriminate.
  - injection W as ->. exists [], e, idx, blk, st. auto.
  - destruct (IH W) as (init & e' & i & blk' & sti & -> & T').
    exists (e :: init), e', i, blk', sti. auto.
Qed.

(** X11.  A verified batch result is built from the winning run: its reason
    is [docker_passed]; its details are the trial history followed by the
    winner's execution fields, with [ok = True] and [return_code = 0]; and
    the last record of the history carries those same execution fields. *)
Theorem verified_result_carries_execution
    (blocks : list string) (timeout : Z) (st : state) :
  exists res st',
    verify_python (CodeList blocks) timeout st = (Ok res, st') /\
    (PyDict.get res "verified" = VBool true ->
     PyDict.get res "reason" = VStr "docker_passed" /\
     exists out err init last,
       PyDict.get res "details"
       = VDict [("tried_blocks", VList (tried_blocks res));
                ("ok", VBool true); ("stdout", VStr out);
                ("stderr", VStr err); ("return_code", VInt 0)] /\
       tried_blocks res = (init ++ [last])%list /\
       field last "details"
       = VDict [("ok", VBool true); ("stdout", VStr out);
                ("stderr", VStr err); ("return_code", VInt 0)]).
Proof.
  destruct (verify_python_list_run blocks timeout st)
    as (new & won & st' & R & E & Htried).
  exists (final_result new won), st'. rewrite Htried.
  split; [exact E|]. rewrite final_result_verified.
  destruct won as [res|]; [|discriminate]. intros _.
  destruct (loop_run_last _ _ _ _ _ _ _ R)
    as (init & last & i & blk & sti & -> & T).
  destruct (trial_won_shape _ _ _ _ _ _ _ T) as (out & err & -> & Hd & _).
  split; [reflexivity|]. exists out, err, init, last. auto.
Qed.

(** ** Facts about the retriever's cache *)

Lemma cache_get_put_same key v c : cache_get key (cache_put key v c) = Some v.
Proof.
  induction c as [|[k v'] c IH]; cbn.
  - now rewrite String.eqb_refl.
  - destruct (String.eqb key k) eqn:E; cbn; rewrite E; auto.
Qed.

Lemma cache_get_put_other key k v c :
  k <> key -> cache_get k (cache_put key v c) = cache_get k c.
Proof.
  intros Hk. induction c as [|[k' v'] c IH]; cbn.
  - destruct (String.eqb_spec k key); [contradiction|reflexivity].
  - destruct (String.eqb_spec key k') as [<-|]; cbn.
    + destruct (String.eqb_spec k key); [contradiction|reflexivity].
    + now rewrite IH.
Qed.

Lemma cache_get_absent key c :
  ~ In key (map fst c) -> cache_get key c = None.
Proof.
  induction c as [|[k v] c IH]; cbn; [reflexivity|].
  intros H. destruct (String.eqb_spec key k) as [->|].
  - exfalso. apply H. now left.
  - apply IH. intros Hin. apply H. now right.
Qed.

Lemma cache_get_pop_same key c :
  NoDup (map fst c) -> cache_get key (cache_pop key c) = None.
Proof.
  induction c as [|[k v] c IH]; cbn; [reflexivity|].
  intros H. inversion H as [|? ? Hk Hc]; subst.
  destruct (String.eqb_spec key k) as [->|Hne]; cbn.
  - now apply cache_get_absent.
  - destruct (String.eqb_spec key k); [contradiction|]. now apply IH.
Qed.

Lemma cache_get_pop_other key k c :
  k <> key -> cache_get k (cache_pop key c) = cache_get k c.
Proof.
  intros Hk. induction c as [|[k' v'] c IH]; cbn; [reflexivity|].
  destruct (String.eqb_spec key k') as [<-|]; cbn.
  - destruct (String.eqb_spec k key); [contradiction|reflexivity].
  - now rewrite IH.
Qed.

Lemma cache_put_keys key v c :
  map fst (cache_put key v c)
  = if existsb (String.eqb key) (map fst c) then map fst c
    else (map fst c ++ [key])%list.
Proof.
  induction c as [|[k v'] c IH]; cbn; [reflexivity|].
  destruct (String.eqb key k) eqn:E; cbn; [reflexivity|].
  rewrite IH. now destruct (existsb (String.eqb key) (map fst c)).
Qed.

Lemma cache_put_NoDup key v c :
  NoDup (map fst c) -> NoDup (map fst (cache_put key v c)).
Proof.
  intros H. rewrite cache_put_keys.
  destruct (existsb (String.eqb key) (map fst c)) eqn:E; [exact H|].
  apply NoDup_app; [exact H|repeat constructor; intros []|].
  intros k Hk [Hk'|[]]. subst k.
  assert (existsb (String.eqb key) (map fst c) = true); [|congruence].
  apply existsb_exists. exists key. split; [exact Hk|apply String.eqb_refl].
Qed.

Lemma cache_pop_NoDup key c :
  NoDup (map fst c) -> NoDup (map fst (cache_pop key c)).
Proof.
  induction c as [|[k v] c IH]; cbn; [auto|].
  intros H. inversion H as [|? ? Hk Hc]; subst.
  destruct (String.eqb key k); [exact Hc|]. cbn. constructor; auto.
  intros Hin. apply Hk. revert Hin. clear.
  induction c as [|[k' v'] c IH]; cbn; [auto|].
  destruct (String.eqb key k'); cbn; [now right|].
  intros [H|H]; [now left|right; now apply IH].
Qed.

(** X12.  Saving a response and reading it back: the lookup returns the
    saved data unless the entry has outlived [CACHE_TTL], in which case it
    returns [None] and removes the entry; the entries of other keys are as
    they were. *)
Theorem cache_save_then_get (key : string) (data : pyval) (s : rstate) :
  NoDup (map fst (cache s)) ->
  let t0 := fst (clock (rworld s)) in
  let t1 := fst (clock (snd (clock (rworld s)))) in
  let r := (_save_to_cache key data ;;~ _get_from_cache key) s in
  fst r = Ok (if fgt (fsub t1 t0) CACHE_TTL then VNone else data) /\
  cache_get key (cache (snd r))
  = (if fgt (fsub t1 t0) CACHE_TTL then None else Some (t0, data)) /\
  (forall k, k <> key ->
             cache_get k (cache (snd r)) = cache_get k (cache s)) /\
  NoDup (map fst (cache (snd r))).
Proof.
  intros ND. cbv zeta.
  unfold _save_to_cache, _get_from_cache, rbind, read_clock, rret.
  destruct (clock (rworld s)) as [t0 w1] eqn:C0.
  cbn [fst snd cache rworld rlog]. rewrite cache_get_put_same.
  destruct (clock w1) as [t1 w2] eqn:C1. cbn [fst snd cache rworld rlog].
  destruct (fgt (fsub t1 t0) CACHE_TTL); cbn [fst snd cache].
  - split; [reflexivity|]. split; [|split].
    + apply cache_get_pop_same. now apply cache_put_NoDup.
    + intros k Hk.
      now rewrite (cache_get_pop_other _ _ _ Hk), (cache_get_put_other _ _ _ _ Hk).
    + apply cache_pop_NoDup. now apply cache_put_NoDup.
  - split; [reflexivity|]. split; [apply cache_get_put_same|]. split.
    + intros k Hk. now apply cache_get_put_other.
    + now apply cache_put_NoDup.
Qed.

(** ** Facts about the request with retries *)

Lemma sleeps_of_app (a b : list revent) :
  sleeps_of (a ++ b) = (sleeps_of a ++ sleeps_of b)%list.
Proof. unfold sleeps_of. apply flat_map_app. Qed.

Lemma requests_in_app (a b : list revent) :
  requests_in (a ++ b) = (requests_in a + requests_in b)%nat.
Proof. unfold requests_in. now rewrite filter_app, length_app. Qed.

(** One attempt of the loop. *)
Lemma safe_get_attempts_step url params retries timeout backoff key n attempt s :
  safe_get_attempts url params retries timeout backoff key (S n) attempt s
  = match http (rworld s) url params timeout with
    | (HttpJson data, w) =>
        (Ok data,
         mkRState (snd (clock w))
           (cache_put key (fst (clock w), data) (cache s))
           (rlog s ++ [Requested url params timeout]))
    | (HttpTimeout, w) =>
        safe_get_attempts url params retries timeout backoff key n (S attempt)
          (mkRState (sleep w (fmul backoff (Z.of_nat attempt + 1))) (cache s)
             (rlog s ++
              [Requested url params timeout;
               Printed (MsgWarnTimeout (attempt + 1) retries url);
               Slept (fmul backoff (Z.of_nat attempt + 1))]))
    | (HttpRequestError msg, w) =>
        safe_get_attempts url params retries timeout backoff key n (S attempt)
          (mkRState (sleep w (fmul backoff (Z.of_nat attempt + 1))) (cache s)
             (rlog s ++
              [Requested url params timeout; Printed (MsgError url msg);
               Slept (fmul backoff (Z.of_nat attempt + 1))]))
    | (HttpOtherError msg, w) =>
        (Raise (Exception msg),
         mkRState w (cache s) (rlog s ++ [Requested url params timeout]))
    end.
Proof.
  cbn [safe_get_attempts].
  unfold _save_to_cache, print, rnote, do_sleep, rlift, do_request,
    read_clock, rret, rbind.
  destruct (http (rworld s) url params timeout) as [[data| |msg|msg] w];
    cbn [rworld cache rlog]; try reflexivity.
  - destruct (clock w). reflexivity.
  - now rewrite <- !app_assoc.
  - now rewrite <- !app_assoc.
Qed.

(** The loop of [_safe_get], from attempt [attempt] with [remaining] attempts
    left: it makes [m] failed attempts, sleeping after each, and then either
    runs out of attempts, or succeeds and caches the data, or raises. *)
Lemma safe_get_attempts_run url params retries timeout backoff key :
  forall remaining attempt s,
  exists m evs,
    (m <= remaining)%nat /\
    rlog (snd (safe_get_attempts url params retries timeout backoff key
                 remaining attempt s))
    = (rlog s ++ evs)%list /\
    sleeps_of evs
    = map (fun i => fmul backoff (Z.of_nat i + 1)) (seq attempt m) /\
    match fst (safe_get_attempts url params retries timeout backoff key
                 remaining attempt s) with
    | Ok data =>
        (m = remaining /\ data = VDict [] /\ requests_in evs = m /\
         cache (snd (safe_get_attempts url params retries timeout backoff key
                       remaining attempt s)) = cache s)
        \/ ((m < remaining)%nat /\ requests_in evs = S m /\
            exists t,
              cache (snd (safe_get_attempts url params retries timeout
                            backoff key remaining attempt s))
              = cache_put key (t, data) (cache s))
    | Raise e =>
        (m < remaining)%nat /\ requests_in evs = S m /\
        cache (snd (safe_get_attempts url params retries timeout backoff key
                      remaining attempt s)) = cache s
    end.
Proof.
  induction remaining as [|n IH]; intros attempt s.
  - exists 0%nat, [Printed (MsgFail url)]. cbn.
    split; [lia|]. split; [reflexivity|]. split; [reflexivity|].
    left. auto.
  - rewrite safe_get_attempts_step.
    destruct (http (rworld s) url params timeout) as [[data| |msg|msg] w].
    + exists 0%nat, [Requested url params timeout]. cbn.
      split; [lia|]. split; [reflexivity|]. split; [reflexivity|].
      right. split; [lia|]. split; [reflexivity|]. now eexists.
    + match goal with
      | |- context [safe_get_attempts _ _ _ _ _ _ n (S attempt) ?s1] =>
          destruct (IH (S attempt) s1) as (m & evs & Hm & Hlog & Hsl & Hres);
          set (run := safe_get_attempts url params retries timeout backoff
                        key n (S attempt) s1) in *
      end.
      exists (S m),
        ([Requested url params timeout;
          Printed (MsgWarnTimeout (attempt + 1) retries url);
          Slept (fmul backoff (Z.of_nat attempt + 1))] ++ evs)%list.
      split; [lia|]. split.
      { rewrite Hlog. cbn [rlog]. now rewrite <- !app_assoc. }
      split.
      { rewrite sleeps_of_app, Hsl. reflexivity. }
      rewrite requests_in_app.
      change (requests_in [Requested url params timeout;
                Printed (MsgWarnTimeout (attempt + 1) retries url);
                Slept (fmul backoff (Z.of_nat attempt + 1))]) with 1%nat.
      destruct (fst run) as [data|e]; cbn [cache] in Hres.
      * destruct Hres as [(-> & -> & Hr & Hc)|(Hlt & Hr & t & Hc)].
        -- left. repeat split; auto; now rewrite Hr.
        -- right. split; [lia|]. split; [now rewrite Hr|]. now exists t.
      * destruct Hres as (Hlt & Hr & Hc).
        split; [lia|]. split; [now rewrite Hr|exact Hc].
    + match goal with
      | |- context [safe_get_attempts _ _ _ _ _ _ n (S attempt) ?s1] =>
          destruct (IH (S attempt) s1) as (m & evs & Hm & Hlog & Hsl & Hres);
          set (run := safe_get_attempts url params retries timeout backoff
                        key n (S attempt) s1) in *
      end.
      exists (S m),
        ([Requested url params timeout; Printed (MsgError url msg);
          Slept (fmul backoff (Z.of_nat attempt + 1))] ++ evs)%list.
      split; [lia|]. split.
      { rewrite Hlog. cbn [rlog]. now rewrite <- !app_assoc. }
      split.
      { rewrite sleeps_of_app, Hsl. reflexivity. }
      rewrite requests_in_app.
      change (requests_in [Requested url params timeout;
                Printed (MsgError url msg);
                Slept (fmul backoff (Z.of_nat attempt + 1))]) with 1%nat.
      destruct (fst run) as [data|e]; cbn [cache] in Hres.
      * destruct Hres as [(-> & -> & Hr & Hc)|(Hlt & Hr & t & Hc)].
        -- left. repeat split; auto; now rewrite Hr.
        -- right. split; [lia|]. split; [now rewrite Hr|]. now exists t.
      * destruct Hres as (Hlt & Hr & Hc).
        split; [lia|]. split; [now rewrite Hr|exact Hc].
    + exists 0%nat, [Requested url params timeout]. cbn.
      split; [lia|]. split; [reflexivity|]. split; [reflexivity|].
      split; [lia|]. split; reflexivity.
Qed.

(** [_safe_get] by the state of the cache. *)
Lemma _safe_get_run url params retries timeout backoff s :
  _safe_get url params retries timeout backoff s
  = let key := url ++ ":" ++ params_repr params in
    match cache_get key (cache s) with
    | None =>
        safe_get_attempts url params retries timeout backoff key
          (Z.to_nat retries) 0 s
    | Some (ts, data) =>
        let now := fst (clock (rworld s)) in
        let w := snd (clock (rworld s)) in
        if fgt (fsub now ts) CACHE_TTL then
          safe_get_attempts url params retries timeout backoff key
            (Z.to_nat retries) 0
            (mkRState w (cache_pop key (cache s)) (rlog s))
        else if truthy data then
          (Ok data, mkRState w (cache s) (rlog s ++ [Printed (MsgCache url)]))
        else
          safe_get_attempts url params retries timeout backoff key
            (Z.to_nat retries) 0 (mkRState w (cache s) (rlog s))
    end.
Proof.
  unfold _safe_get, _get_from_cache. cbv zeta. unfold rbind at 1.
  destruct (cache_get (url ++ ":" ++ params_repr params) (cache s))
    as [[ts data]|]; [|reflexivity].
  unfold rbind at 1, read_clock.
  destruct (clock (rworld s)) as [now w]. cbn [fst snd].
  destruct (fgt (fsub now ts) CACHE_TTL); [reflexivity|].
  unfold rret at 1. destruct (truthy data); reflexivity.
Qed.

(** What one call of [_safe_get] adds to the log. *)
Lemma _safe_get_log url params retries timeout backoff s :
  exists m evs,
    rlog (snd (_safe_get url params retries timeout backoff s))
    = (rlog s ++ evs)%list /\
    (requests_in evs <= Z.to_nat retries)%nat /\
    (m <= requests_in evs)%nat /\
    sleeps_of evs = map (fun i => fmul backoff (Z.of_nat i + 1)) (seq 0 m).
Proof.
  assert (A : forall s0,
             exists m evs,
               rlog (snd (safe_get_attempts url params retries timeout backoff
                            (url ++ ":" ++ params_repr params)
                            (Z.to_nat retries) 0 s0))
               = (rlog s0 ++ evs)%list /\
               (requests_in evs <= Z.to_nat retries)%nat /\
               (m <= requests_in evs)%nat /\
               sleeps_of evs
               = map (fun i => fmul backoff (Z.of_nat i + 1)) (seq 0 m)).
  { intros s0.
    destruct (safe_get_attempts_run url params retries timeout backoff
                (url ++ ":" ++ params_repr params) (Z.to_nat retries) 0%nat s0)
      as (m & evs & Hm & Hlog & Hsl & Hres).
    exists m, evs. split; [exact Hlog|].
    destruct (fst (safe_get_attempts _ _ _ _ _ _ _ _ _)) as [data|e].
    - destruct Hres as [(E & _ & Hr & _)|(Hlt & Hr & _)];
        repeat split; auto; lia.
    - destruct Hres as (Hlt & Hr & _). repeat split; auto; lia. }
  rewrite _safe_get_run. cbv zeta.
  destruct (cache_get (url ++ ":" ++ params_repr params) (cache s))
    as [[ts data]|]; [|apply A].
  destruct (fgt (fsub (fst (clock (rworld s))) ts) CACHE_TTL).
  - match goal with |- context [safe_get_attempts _ _ _ _ _ _ _ _ ?s1] =>
      destruct (A s1) as (m & evs & H) end.
    exists m, evs. exact H.
  - destruct (truthy data).
    + exists 0%nat, [Printed (MsgCache url)]. cbn. repeat split; lia.
    + match goal with |- context [safe_get_attempts _ _ _ _ _ _ _ _ ?s1] =>
        destruct (A s1) as (m & evs & H) end.
      exists m, evs. exact H.
Qed.



(** X14.  A fresh cached response that is not empty is returned without
    asking the network: the only thing done is one reading of the clock and
    one printed line, and the cache is left as it was. *)
Theorem _safe_get_cache_hit url params retries timeout backoff s ts data :
  cache_get (url ++ ":" ++ params_repr params) (cache s) = Some (ts, data) ->
  fgt (fsub (fst (clock (rworld s))) ts) CACHE_TTL = false ->
  truthy data = true ->
  _safe_get url params retries timeout backoff s
  = (Ok data,
     mkRState (snd (clock (rworld s))) (cache s)
       (rlog s ++ [Printed (MsgCache url)])).
Proof.
  intros Hc Hf Ht. rewrite _safe_get_run. cbv zeta.
  now rewrite Hc, Hf, Ht.
Qed.

(** X15.  A cached response that is empty, such as [{}] or [[]], is never
    served: even while it is fresh, [_safe_get] goes to the network. *)
Theorem _safe_get_empty_entry_not_served
    url params retries timeout backoff s ts data :
  cache_get (url ++ ":" ++ params_repr params) (cache s) = Some (ts, data) ->
  fgt (fsub (fst (clock (rworld s))) ts) CACHE_TTL = false ->
  truthy data = false ->
  (0 < retries)%Z ->
  exists evs,
    rlog (snd (_safe_get url params retries timeout backoff s))
    = (rlog s ++ Requested url params timeout :: evs)%list.
Proof.
  intros Hc Hf Ht Hr. rewrite _safe_get_run. cbv zeta.
  rewrite Hc, Hf, Ht.
  destruct (Z.to_nat retries) as [|n] eqn:En; [lia|].
  rewrite safe_get_attempts_step. cbn [rworld cache rlog].
  destruct (http (snd (clock (rworld s))) url params timeout)
    as [[d| |msg|msg] w].
  - now exists [].
  - destruct (safe_get_attempts_run url params retries timeout backoff
                (url ++ ":" ++ params_repr params) n 1%nat
                (mkRState (sleep w (fmul backoff (Z.of_nat 0 + 1))) (cache s)
                   (rlog s ++
                    [Requested url params timeout;
                     Printed (MsgWarnTimeout (0 + 1) retries url);
                     Slept (fmul backoff (Z.of_nat 0 + 1))])))
      as (m & evs & _ & Hlog & _).
    rewrite Hlog. cbn [rlog]. rewrite <- app_assoc. eexists. reflexivity.
  - destruct (safe_get_attempts_run url params retries timeout backoff
                (url ++ ":" ++ params_repr params) n 1%nat
                (mkRState (sleep w (fmul backoff (Z.of_nat 0 + 1))) (cache s)
                   (rlog s ++
                    [Requested url params timeout; Printed (MsgError url msg);
                     Slept (fmul backoff (Z.of_nat 0 + 1))])))
      as (m & evs & _ & Hlog & _).
    rewrite Hlog. cbn [rlog]. rewrite <- app_assoc. eexists. reflexivity.
  - now exists [].
Qed.

(** X16.  A successful request is cached: when the key has no entry and the
    first attempt is answered with data that is not empty, a second identical
    call made while the entry is fresh returns the same data from the cache,
    so the two calls cost one request. *)
Theorem _safe_get_twice url params retries timeout backoff s data :
  cache_get (url ++ ":" ++ params_repr params) (cache s) = None ->
  fst (http (rworld s) url params timeout) = HttpJson data ->
  truthy data = true ->
  (0 < retries)%Z ->
  let w1 := snd (http (rworld s) url params timeout) in
  let t1 := fst (clock w1) in
  let w2 := snd (clock w1) in
  fgt (fsub (fst (clock w2)) t1) CACHE_TTL = false ->
  (_safe_get url params retries timeout backoff ;;~
   _safe_get url params retries timeout backoff) s
  = (Ok data,
     mkRState (snd (clock w2))
       (cache_put (url ++ ":" ++ params_repr params) (t1, data) (cache s))
       (rlog s ++ [Requested url params timeout; Printed (MsgCache url)])).
Proof.
  intros Hc Hh Ht Hr w1 t1 w2 Hf. unfold rbind.
  rewrite _safe_get_run. cbv zeta. rewrite Hc.
  destruct (Z.to_nat retries) as [|n] eqn:En; [lia|].
  rewrite safe_get_attempts_step.
  destruct (http (rworld s) url params timeout) as [resp w] eqn:E.
  cbn [fst snd] in *. subst resp w1.
  rewrite _safe_get_run. cbv zeta. cbn [rworld cache rlog].
  rewrite cache_get_put_same. fold t1 w2. rewrite Hf, Ht.
  now rewrite <- app_assoc.
Qed.

(** ** Facts about the search *)

Lemma subseq_nil_l {A} (l : list A) : subseq [] l.
Proof. induction l; constructor; auto. Qed.

Lemma ForallOrdPairs_snoc {A} (R : A -> A -> Prop) (l : list A) (x : A) :
  ForallOrdPairs R l -> Forall (fun a => R a x) l ->
  ForallOrdPairs R (l ++ [x]).
Proof.
  induction 1 as [|a l Ha Hl IH]; intros F; cbn.
  - repeat constructor.
  - inversion F as [|? ? Hax Hlx]; subst. constructor; auto.
    apply Forall_app. split; [exact Ha|]. now constructor.
Qed.

(** The deduplication loop keeps: [seen] holds the ids of [res]; the ids of
    [res] are truthy and each differs from the ones before it; and [res] is
    empty or still below the limit. *)
Lemma dedupe_run (m : Z) :
  forall questions seen res out,
    dedupe m questions seen res = Ok out ->
    (forall x, In x seen <-> In x (map qid_of res)) ->
    ForallOrdPairs (fun a b => py_eq b a = false) (map qid_of res) ->
    Forall (fun q => truthy (qid_of q) = true) res ->
    (res = [] \/ (Z.of_nat (List.length res) < m)%Z) ->
    ForallOrdPairs (fun a b => py_eq b a = false) (map qid_of out) /\
    Forall (fun q => truthy (qid_of q) = true) out /\
    (Z.of_nat (List.length out) <= Z.max 1 m)%Z /\
    exists extra, out = (res ++ extra)%list /\ subseq extra questions.
Proof.
  induction questions as [|q rest IH]; intros seen res out E Hseen Hd Ht Hlen.
  - cbn in E. injection E as <-. repeat split; auto.
    + destruct Hlen as [->|Hlen]; cbn; lia.
    + exists []. rewrite app_nil_r. split; [reflexivity|constructor].
  - cbn [dedupe] in E. fold (qid_of q) in E.
    assert (Keep : forall out',
               (if (m <=? Z.of_nat (List.length res))%Z then Ok res
                else dedupe m rest seen res) = Ok out' ->
               ForallOrdPairs (fun a b => py_eq b a = false)
                 (map qid_of out') /\
               Forall (fun q => truthy (qid_of q) = true) out' /\
               (Z.of_nat (List.length out') <= Z.max 1 m)%Z /\
               exists extra,
                 out' = (res ++ extra)%list /\ subseq extra (q :: rest)).
    { intros out' E'. destruct (m <=? Z.of_nat (List.length res))%Z eqn:Hm.
      - injection E' as <-. repeat split; auto.
        + destruct Hlen as [->|Hlen]; cbn; lia.
        + exists []. rewrite app_nil_r. split; [reflexivity|].
          apply subseq_nil_l.
      - destruct (IH _ _ _ E' Hseen Hd Ht Hlen) as (A & B & C & extra & D & S).
        repeat split; auto. exists extra. split; [exact D|].
        now apply subseq_skip. }
    destruct (truthy (qid_of q)) eqn:Tq; [|now apply Keep].
    destruct (hashable (qid_of q)); [|discriminate E].
    destruct (py_mem (qid_of q) seen) eqn:Mq; cbn [negb] in E;
      [now apply Keep|].
    assert (Hd' : ForallOrdPairs (fun a b => py_eq b a = false)
                    (map qid_of (res ++ [q]))).
    { rewrite map_app. cbn [map]. apply ForallOrdPairs_snoc; [exact Hd|].
      apply Forall_forall. intros x Hx. apply Hseen in Hx.
      unfold py_mem in Mq.
      destruct (py_eq (qid_of q) x) eqn:Ex; [|reflexivity].
      assert (existsb (py_eq (qid_of q)) seen = true); [|congruence].
      apply existsb_exists. now exists x. }
    assert (Ht' : Forall (fun q => truthy (qid_of q) = true) (res ++ [q])).
    { apply Forall_app. split; [exact Ht|]. now constructor. }
    destruct (m <=? Z.of_nat (List.length (res ++ [q])))%Z eqn:Hm.
    + injection E as <-. split; [exact Hd'|]. split; [exact Ht'|]. split.
      * rewrite length_app in *. cbn [List.length] in *.
        destruct Hlen as [->|Hlen]; cbn; lia.
      * exists [q]. split; [reflexivity|]. apply subseq_take.
        apply subseq_nil_l.
    + apply Z.leb_gt in Hm.
      destruct (IH _ _ _ E) as (A & B & C & extra & D & S); auto.
      * intros x. rewrite map_app, in_app_iff. cbn. rewrite <- Hseen.
        split; [intros [H|H]|intros [H|[H|[]]]]; auto.
      * repeat split; auto. exists (q :: extra).
        split; [now rewrite D, <- app_assoc|]. now apply subseq_take.
Qed.

Lemma rbind_ok {A B} (m : R A) (f : A -> R B) s b s' :
  rbind m f s = (Ok b, s') ->
  exists a s1, m s = (Ok a, s1) /\ f a s1 = (Ok b, s').
Proof.
  unfold rbind. destruct (m s) as [[a|e] s1]; [|discriminate].
  intros H. now exists a, s1.
Qed.

Lemma rlift_ok {A} (r : result A) s a s' :
  rlift r s = (Ok a, s') -> r = Ok a /\ s' = s.
Proof. unfold rlift. now intros [= -> ->]. Qed.

Lemma _safe_get_requests url params retries timeout backoff s :
  exists evs,
    rlog (snd (_safe_get url params retries timeout backoff s))
    = (rlog s ++ evs)%list /\
    (requests_in evs <= Z.to_nat retries)%nat.
Proof.
  destruct (_safe_get_log url params retries timeout backoff s)
    as (m & evs & H1 & H2 & _). now exists evs.
Qed.

(** What a successful search went through: the deduplication of the entries
    of one or two responses, after at most six requests. *)
Lemma search_stackoverflow_run query m s res s' :
  search_stackoverflow query m s = (Ok res, s') ->
  exists questions evs,
    dedupe m questions [] [] = Ok res /\
    rlog s' = (rlog s ++ evs)%list /\
    (requests_in evs <= 6)%nat.
Proof.
  unfold search_stackoverflow. cbv zeta. intros H.
  apply rbind_ok in H. destruct H as (data & s1 & E1 & H).
  apply rbind_ok in H. destruct H as (qs & s2 & E2 & H).
  apply rlift_ok in E2. destruct E2 as [E2 ->].
  apply rbind_ok in H. destruct H as (qs' & s3 & E3 & H).
  apply rbind_ok in H. destruct H as (out & s4 & E4 & H).
  apply rlift_ok in E4. destruct E4 as [E4 ->].
  unfold rbind, print, rnote, rret in H. injection H as Hout Hs'.
  subst out s'. exists qs'. cbn [rlog].
  destruct (_safe_get_requests (STACK_API_BASE ++ "/search/advanced")
              (search_params "relevance" query true (Z.min m 50)) 3 10
              default_backoff s) as (ev1 & L1 & R1).
  rewrite E1 in L1. cbn [snd] in L1.
  destruct (Z.of_nat (List.length qs) <? m)%Z.
  - apply rbind_ok in E3. destruct E3 as (data2 & s5 & E5 & E3).
    apply rbind_ok in E3. destruct E3 as (more & s6 & E6 & E3).
    apply rlift_ok in E6. destruct E6 as [E6 ->].
    unfold rret in E3. injection E3 as <- <-.
    match type of E5 with
    | _safe_get ?u ?p ?r ?t ?b ?st = _ =>
        destruct (_safe_get_requests u p r t b st) as (ev2 & L2 & R2)
    end.
    rewrite E5 in L2. cbn [snd] in L2.
    exists ((ev1 ++ ev2) ++ [Printed (MsgFound (List.length res) query)])%list.
    split; [exact E4|]. split.
    + now rewrite L2, L1, <- !app_assoc.
    + rewrite !requests_in_app. cbn in *. lia.
  - unfold rret in E3. injection E3 as <- <-.
    exists (ev1 ++ [Printed (MsgFound (List.length res) query)])%list.
    split; [exact E4|]. split.
    + now rewrite L1, <- !app_assoc.
    + rewrite !requests_in_app. cbn in *. lia.
Qed.

(** X17.  What a search returns: no entry has the [question_id] of an
    earlier entry; every entry has a [question_id] that counts as true; there
    are at most [max_questions] entries, or one when [max_questions] is below
    one; and at most six requests were made. *)
Theorem search_stackoverflow_result query max_questions s res s' :
  search_stackoverflow query max_questions s = (Ok res, s') ->
  ForallOrdPairs (fun a b => py_eq b a = false) (map qid_of res) /\
  Forall (fun q => truthy (qid_of q) = true) res /\
  (Z.of_nat (List.length res) <= Z.max 1 max_questions)%Z /\
  exists evs,
    rlog s' = (rlog s ++ evs)%list /\ (requests_in evs <= 6)%nat.
Proof.
  intros H.
  destruct (search_stackoverflow_run _ _ _ _ _ H) as (qs & evs & D & L & Rq).
  destruct (dedupe_run max_questions qs [] [] res D) as (A & B & C & _).
  - intros x. cbn. split; auto.
  - constructor.
  - constructor.
  - now left.
  - repeat split; auto. now exists evs.
Qed.

Lemma safe_get_attempts_dead url params retries timeout backoff key :
  (forall w u p t, is_soft_failure (fst (http w u p t)) = true) ->
  forall remaining attempt s,
    fst (safe_get_attempts url params retries timeout backoff key
           remaining attempt s) = Ok (VDict []) /\
    cache (snd (safe_get_attempts url params retries timeout backoff key
                  remaining attempt s)) = cache s.
Proof.
  intros Dead. induction remaining as [|n IH]; intros attempt s.
  - split; reflexivity.
  - rewrite safe_get_attempts_step.
    pose proof (Dead (rworld s) url params timeout) as D.
    destruct (http (rworld s) url params timeout) as [[d| |msg|msg] w];
      try discriminate D.
    + match goal with |- context [safe_get_attempts _ _ _ _ _ _ n _ ?s1] =>
        destruct (IH (S attempt) s1) as [A B] end.
      now rewrite A, B.
    + match goal with |- context [safe_get_attempts _ _ _ _ _ _ n _ ?s1] =>
        destruct (IH (S attempt) s1) as [A B] end.
      now rewrite A, B.
Qed.

Lemma _safe_get_dead url params retries timeout backoff s :
  (forall w u p t, is_soft_failure (fst (http w u p t)) = true) ->
  cache s = [] ->
  fst (_safe_get url params retries timeout backoff s) = Ok (VDict []) /\
  cache (snd (_safe_get url params retries timeout backoff s)) = [].
Proof.
  intros Dead Hc. rewrite _safe_get_run. cbv zeta. rewrite Hc. cbn [cache_get].
  destruct (safe_get_attempts_dead url params retries timeout backoff
              (url ++ ":" ++ params_repr params) Dead (Z.to_nat retries)
              0%nat s) as [A B].
  now rewrite A, B.
Qed.

Lemma dedupe_nil m : dedupe m [] [] [] = Ok [].
Proof. reflexivity. Qed.

(** X18.  With an empty cache and a network that only times out or fails,
    searching and fetching answers do not raise: both return the empty
    list. *)
Theorem retriever_survives_dead_network query max_questions question_id
    max_answers s :
  (forall w u p t, is_soft_failure (fst (http w u p t)) = true) ->
  cache s = [] ->
  fst (search_stackoverflow query max_questions s) = Ok [] /\
  fst (fetch_answers question_id max_answers s) = Ok [].
Proof.
  intros Dead Hc. split.
  - unfold search_stackoverflow. cbv zeta. unfold rbind at 1.
    destruct (_safe_get_dead (STACK_API_BASE ++ "/search/advanced")
                (search_params "relevance" query true (Z.min max_questions 50))
                3 10 default_backoff s Dead Hc) as [A B].
    destruct (_safe_get _ _ _ _ _ s) as [r1 s1]. cbn [fst snd] in A, B.
    subst r1. unfold rbind at 1. cbn [rlift questions_of_response py_get
      PyDict.get_or PyDict.lookup py_iter map_result].
    cbn [List.length Z.of_nat].
    destruct (0 <? max_questions)%Z.
    + unfold rbind at 1. unfold rbind at 1.
      match goal with |- context [_safe_get ?u ?p ?r ?t ?b s1] =>
        destruct (_safe_get_dead u p r t b s1 Dead B) as [A2 B2];
        destruct (_safe_get u p r t b s1) as [r2 s2] end.
      cbn [fst snd] in A2, B2. subst r2. reflexivity.
    + reflexivity.
  - unfold fetch_answers. cbv zeta. unfold rbind at 1.
    match goal with |- context [_safe_get ?u ?p ?r ?t ?b s] =>
      destruct (_safe_get_dead u p r t b s Dead Hc) as [A B];
      destruct (_safe_get u p r t b s) as [r1 s1] end.
    cbn [fst snd] in A, B. subst r1. reflexivity.
Qed.

(** ** Facts about the order of answers *)

Lemma key_le_refl x : key_le x x = true.
Proof. destruct x as [[] z]; cbn; apply Z.leb_refl. Qed.

Lemma key_le_total x y : key_le x y = false -> key_le y x = true.
Proof.
  destruct x as [[] a], y as [[] b]; cbn; try discriminate; auto;
    rewrite Z.leb_gt, Z.leb_le; lia.
Qed.

Lemma key_le_trans x y z :
  key_le x y = true -> key_le y z = true -> key_le x z = true.
Proof.
  destruct x as [[] a], y as [[] b], z as [[] c]; cbn; try discriminate; auto;
    rewrite !Z.leb_le; lia.
Qed.

Lemma key_eqb_eq x y : key_eqb x y = true -> x = y.
Proof.
  destruct x as [a b], y as [c d]. unfold key_eqb. cbn.
  rewrite andb_true_iff, Z.eqb_eq. intros [H ->].
  apply Bool.eqb_prop in H. now subst.
Qed.

Lemma Forall_perm {A} (P : A -> Prop) (l l' : list A) :
  Permutation l l' -> Forall P l -> Forall P l'.
Proof. intros H F. exact (Permutation_Forall H F). Qed.

Section Sorting.

Let keyed : Type := ((bool * Z) * dict)%type.
Let le (x y : keyed) : Prop := key_le (fst x) (fst y) = true.

Lemma insert_by_key_perm (x : keyed) (l : list keyed) :
  Permutation (insert_by_key x l) (x :: l).
Proof.
  induction l as [|y l IH]; cbn; [reflexivity|].
  destruct (key_le (fst x) (fst y)); [reflexivity|].
  rewrite IH. apply perm_swap.
Qed.

Lemma sort_by_key_perm (l : list keyed) : Permutation (sort_by_key l) l.
Proof.
  induction l as [|x l IH]; cbn; [reflexivity|].
  rewrite insert_by_key_perm. now constructor.
Qed.

Lemma insert_by_key_sorted (x : keyed) (l : list keyed) :
  StronglySorted le l -> StronglySorted le (insert_by_key x l).
Proof.
  induction 1 as [|y l Hs IH Hy]; cbn.
  - repeat constructor.
  - destruct (key_le (fst x) (fst y)) eqn:E.
    + constructor; [now constructor|]. constructor; [exact E|].
      revert Hy. apply Forall_impl. intros z Hz.
      exact (key_le_trans _ _ _ E Hz).
    + constructor; [exact IH|].
      apply (Forall_perm _ (x :: l));
        [symmetry; apply insert_by_key_perm|].
      constructor; [|exact Hy]. now apply key_le_total.
Qed.

Lemma sort_by_key_sorted (l : list keyed) : StronglySorted le (sort_by_key l).
Proof.
  induction l as [|x l IH]; cbn; [constructor|].
  now apply insert_by_key_sorted.
Qed.

Lemma insert_by_key_filter (k : bool * Z) (x : keyed) (l : list keyed) :
  filter (fun y => key_eqb (fst y) k) (insert_by_key x l)
  = filter (fun y => key_eqb (fst y) k) (x :: l).
Proof.
  induction l as [|y l IH]; [reflexivity|].
  cbn [insert_by_key]. destruct (key_le (fst x) (fst y)) eqn:E;
    [reflexivity|].
  cbn [filter] in *. rewrite IH.
  destruct (key_eqb (fst x) k) eqn:Ex, (key_eqb (fst y) k) eqn:Ey;
    try reflexivity.
  apply key_eqb_eq in Ex, Ey. rewrite Ex, Ey, key_le_refl in E.
  discriminate E.
Qed.

Lemma sort_by_key_filter (k : bool * Z) (l : list keyed) :
  filter (fun y => key_eqb (fst y) k) (sort_by_key l)
  = filter (fun y => key_eqb (fst y) k) l.
Proof.
  induction l as [|x l IH]; [reflexivity|].
  cbn [sort_by_key fold_right]. fold (sort_by_key l).
  rewrite insert_by_key_filter. cbn [filter]. now rewrite IH.
Qed.

End Sorting.

Lemma map_result_ok {A B} (f : A -> result B) (l : list A) (l' : list B) :
  map_result f l = Ok l' -> Forall2 (fun x y => f x = Ok y) l l'.
Proof.
  revert l'. induction l as [|x l IH]; cbn; intros l' H.
  - injection H as <-. constructor.
  - destruct (f x) as [y|e] eqn:E; [|discriminate].
    destruct (map_result f l) as [ys|e]; [|discriminate].
    injection H as <-. constructor; auto.
Qed.


(** The keyed list built by [sort_answers]. *)
Lemma keyed_answers (answers : list dict) keyed :
  map_result (fun a => match answer_key a with
                       | Raise e => Raise e
                       | Ok k => Ok (k, a)
                       end) answers = Ok keyed ->
  map snd keyed = answers /\
  Forall (fun ka => answer_key (snd ka) = Ok (fst ka)) keyed.
Proof.
  intros H. apply map_result_ok in H.
  induction H as [|a ka l l' Ha _ [IH1 IH2]]; cbn; [split; constructor|].
  destruct (answer_key a) as [k|e] eqn:E; [|discriminate].
  injection Ha as <-. cbn. split; [now rewrite IH1|].
  constructor; [exact E|exact IH2].
Qed.

Lemma keyed_filter (k : bool * Z) (keyed : list ((bool * Z) * dict)) :
  Forall (fun ka => answer_key (snd ka) = Ok (fst ka)) keyed ->
  filter (has_key k) (map snd keyed)
  = map snd (filter (fun y => key_eqb (fst y) k) keyed).
Proof.
  induction 1 as [|ka l Hka _ IH]; cbn; [reflexivity|].
  unfold has_key at 1. rewrite Hka, IH.
  now destruct (key_eqb (fst ka) k).
Qed.

Lemma keyed_sorted (keyed : list ((bool * Z) * dict)) :
  Forall (fun ka => answer_key (snd ka) = Ok (fst ka)) keyed ->
  StronglySorted (fun x y => key_le (fst x) (fst y) = true) keyed ->
  StronglySorted answer_le (map snd keyed).
Proof.
  intros F S. induction S as [|ka l S IH Hka]; cbn; [constructor|].
  inversion F as [|? ? Fk Fl]; subst. constructor; [now apply IH|].
  apply Forall_forall. intros b Hb. apply in_map_iff in Hb.
  destruct Hb as (kb & <- & Hin).
  unfold answer_le. rewrite Fk.
  rewrite (proj1 (Forall_forall _ _) Fl kb Hin).
  exact (proj1 (Forall_forall _ _) Hka kb Hin).
Qed.

Lemma sort_answers_run (answers sorted : list dict) :
  sort_answers answers = Ok sorted ->
  Permutation answers sorted /\
  StronglySorted answer_le sorted /\
  forall k, filter (has_key k) sorted = filter (has_key k) answers.
Proof.
  unfold sort_answers.
  destruct (map_result _ answers) as [keyed|e] eqn:E; [|discriminate].
  intros [= <-]. destruct (keyed_answers _ _ E) as [Hm Hk].
  assert (Hk' : Forall (fun ka => answer_key (snd ka) = Ok (fst ka))
                  (sort_by_key keyed)).
  { apply (Forall_perm _ keyed);
      [symmetry; apply sort_by_key_perm|exact Hk]. }
  split; [|split].
  - rewrite <- Hm. apply Permutation_map. symmetry. apply sort_by_key_perm.
  - apply keyed_sorted; [exact Hk'|apply sort_by_key_sorted].
  - intros k. rewrite (keyed_filter k _ Hk'), sort_by_key_filter.
    rewrite <- Hm. symmetry. now apply keyed_filter.
Qed.


Lemma StronglySorted_weaken {A} (R R' : A -> A -> Prop) (l : list A) :
  (forall a b, R a b -> R' a b) ->
  StronglySorted R l -> StronglySorted R' l.
Proof.
  intros H. induction 1 as [|a l S IH F]; constructor; auto.
  revert F. apply Forall_impl. auto.
Qed.

Lemma answer_le_meaning (a b : dict) :
  answer_le a b ->
  (is_accepted b = true -> is_accepted a = true) /\
  (is_accepted a = is_accepted b -> (score_of b <= score_of a)%Z).
Proof.
  unfold answer_le, answer_key, score_of, is_accepted.
  destruct (py_neg (PyDict.get a "score")) as [na|]; [|intros []].
  destruct (py_neg (PyDict.get b "score")) as [nb|]; [|intros []].
  destruct (truthy (PyDict.get a "is_accepted")),
           (truthy (PyDict.get b "is_accepted")); cbn;
    try discriminate; rewrite ?Z.leb_le; split; intros; auto;
    try discriminate; lia.
Qed.


(** X20.  When the answers fetched for a question all have integer scores,
    they come accepted answers first and, among answers of the same
    acceptance, by falling score; fetching them costs at most three
    requests.  (Nothing is stated of the order when a score is not an
    integer.) *)
Theorem fetch_answers_order question_id max_answers s answers s' :
  fetch_answers question_id max_answers s = (Ok answers, s') ->
  Forall (fun a => int_score a = true) answers ->
  StronglySorted
    (fun a b =>
       (is_accepted b = true -> is_accepted a = true) /\
       (is_accepted a = is_accepted b -> (score_of b <= score_of a)%Z))
    answers /\
  exists evs,
    rlog s' = (rlog s ++ evs)%list /\ (requests_in evs <= 3)%nat.
Proof.
  unfold fetch_answers. cbv zeta. intros H _.
  apply rbind_ok in H. destruct H as (data & s1 & E1 & H).
  apply rbind_ok in H. destruct H as (items & s2 & E2 & H).
  apply rlift_ok in E2. destruct E2 as [E2 ->].
  apply rbind_ok in H. destruct H as (raw & s3 & E3 & H).
  apply rlift_ok in E3. destruct E3 as [E3 ->].
  apply rbind_ok in H. destruct H as (sorted & s4 & E4 & H).
  apply rlift_ok in E4. destruct E4 as [E4 ->].
  unfold rbind, print, rnote, rret in H. injection H as Ha Hs.
  subst sorted s'. split.
  - destruct (sort_answers_run _ _ E4) as (_ & S & _).
    revert S. apply StronglySorted_weaken. exact answer_le_meaning.
  - match type of E1 with
    | _safe_get ?u ?p ?r ?t ?b ?st = _ =>
        destruct (_safe_get_requests u p r t b st) as (evs & L & Rq)
    end.
    rewrite E1 in L. cbn [snd] in L.
    exists (evs ++ [Printed (MsgRetrieved (List.length answers)
                       question_id)])%list.
    cbn [rlog]. split; [now rewrite L, <- app_assoc|].
    rewrite requests_in_app. cbn in *. lia.
Qed.

(** ** Facts about the extracted blocks *)

Lemma lstrip_idempotent (s : string) :
  PyStr.lstrip (PyStr.lstrip s) = PyStr.lstrip s.
Proof.
  induction s as [|c r IH]; [reflexivity|]. cbn [PyStr.lstrip].
  destruct (PyStr.is_space c) eqn:E; [exact IH|].
  cbn [PyStr.lstrip]. now rewrite E.
Qed.

Lemma strip_idempotent (s : string) :
  PyStr.strip (PyStr.strip s) = PyStr.strip s.
Proof.
  unfold PyStr.strip.
  rewrite (lstrip_rstrip_comm (PyStr.lstrip s)), lstrip_idempotent.
  apply rstrip_idempotent.
Qed.

Lemma rstrip_strip (s : string) :
  PyStr.rstrip (PyStr.strip s) = PyStr.strip s.
Proof. unfold PyStr.strip. apply rstrip_idempotent. Qed.

Lemma clean_blocks_in (b : string) (l : list string) :
  In b (clean_blocks l) ->
  PyStr.strip b = b /\ (3 <= PyStr.len b)%nat.
Proof.
  unfold clean_blocks. rewrite in_flat_map. intros (c & _ & H).
  destruct (PyStr.len (PyStr.strip c) <? 3)%nat eqn:E; [destruct H|].
  destruct H as [<-|[]]. split; [apply strip_idempotent|].
  apply Nat.ltb_ge in E. exact E.
Qed.

(** X21.  Every block extracted from an answer is trimmed and has at least
    three characters; so the normalizer hands it to the sandbox as it is,
    followed by a line feed, when it has several lines, and wrapped in
    [print(...)] when it has one. *)
Theorem extract_code_blocks_clean (html b : string) :
  In b (extract_code_blocks html) ->
  PyStr.strip b = b /\
  (3 <= PyStr.len b)%nat /\
  make_executable_snippet b
  = if PyStr.contains PyStr.LF b then b ++ PyStr.newline
    else "print(" ++ b ++ ")" ++ PyStr.newline.
Proof.
  unfold extract_code_blocks.
  destruct (negb (PyStr.truthy html)); [intros []|]. cbv zeta.
  intros H. apply clean_blocks_in in H. destruct H as [Hs Hl].
  split; [exact Hs|]. split; [exact Hl|].
  rewrite make_executable_snippet_run, Hs.
  now rewrite <- Hs, rstrip_strip, Hs.
Qed.

End Engine.

Arguments mkState {World} world trace.
Arguments world {World} s.
Arguments trace {World} s.
Arguments start {World} w.
Arguments run_in_docker {World} host code timeout _.
Arguments _verify_single {World} host code timeout _.
Arguments verify_blocks {World} host timeout idx blocks tried _.
Arguments verify_python {World} host code timeout _.

(** ** Concrete runs

    The runs below use the scripted host; [Exited 0 ...] stands for a sandbox
    that ran the payload to the end. *)

(** The normalizer on a bare expression and on several lines. *)
Example normalize_bare_expression :
  make_executable_snippet "1 + 1" = "print(1 + 1)" ++ PyStr.newline.
Proof. reflexivity. Qed.

Example normalize_two_lines :
  make_executable_snippet
    ("s = 'hello'" ++ PyStr.newline ++ "print(s[::-1])  ")
  = "s = 'hello'" ++ PyStr.newline ++ "print(s[::-1])" ++ PyStr.newline.
Proof. reflexivity. Qed.

(** The screener reports the pattern text of every match. *)
Example screen_os_system :
  looks_safe_python "import os; os.system('rm -rf /')"
  = (false, ["\bos\.system\s*\("]).
Proof. vm_compute. reflexivity. Qed.

Example screen_two_patterns :
  snd (looks_safe_python "import socket, subprocess; subprocess.run(socket.x)")
  = ["\bsubprocess\."; "\bsocket\."].
Proof. vm_compute. reflexivity. Qed.

Example screen_print : looks_safe_python "print('hi')" = (true, []).
Proof. vm_compute. reflexivity. Qed.

Example screen_open_write :
  fst (looks_safe_python "f = open ('a.txt', 'w')") = false.
Proof. vm_compute. reflexivity. Qed.

Example screen_word_boundary :
  fst (looks_safe_python "reopen_os.system_x(1); myeval(2)") = true.
Proof. vm_compute. reflexivity. Qed.

(** C2, counterexample.  The one-line statement [print('hi')] is not passed
    through: it comes back wrapped in a second [print]. *)
Lemma make_executable_snippet_wraps_statement :
  make_executable_snippet "print('hi')"
  = "print(print('hi'))" ++ PyStr.newline /\
  make_executable_snippet "print('hi')" <> "print('hi')" ++ PyStr.newline /\
  make_executable_snippet "print('hi')" <> "print('hi')".
Proof. repeat split; vm_compute; discriminate. Qed.

(** C3, counterexample.  On ["1 + 1"] the first call is the screening of the
    source as given; the screener never sees the normalized form.  A rejected
    source is never normalized at all. *)
Lemma pipeline_screens_before_normalizing :
  trace (snd (_verify_single scripted_host "1 + 1" 5
                (start [Exited 0 "2" ""])))
  = [Screened "1 + 1"; Normalized "1 + 1";
     Executed (make_executable_snippet "1 + 1") 5] /\
  ~ In (Screened (make_executable_snippet "1 + 1"))
       (trace (snd (_verify_single scripted_host "1 + 1" 5
                      (start [Exited 0 "2" ""])))) /\
  trace (snd (_verify_single scripted_host
                "import os; os.system('rm -rf /')" 5 (start no_script)))
  = [Screened "import os; os.system('rm -rf /')"].
Proof.
  split; [vm_compute; reflexivity|]. split; [|vm_compute; reflexivity].
  vm_compute. intros [H|[H|[H|[]]]]; discriminate H.
Qed.

(** C4 at [import os; os.system('rm -rf /')]: the first blacklist pattern
    matches, and the call is answered without a sandbox. *)
Lemma verify_python_static_rejection_witness :
  exists res st',
    verify_python scripted_host
      (CodeStr "import os; os.system('rm -rf /')") 5 (start no_script)
    = (Ok res, st') /\
    PyDict.get res "verified" = VBool false /\
    PyDict.get res "reason" = VStr "static_blacklist_match" /\
    PyDict.get res "matches"
    = VList (map VStr
               (snd (looks_safe_python "import os; os.system('rm -rf /')"))) /\
    trace st'
    = (trace (start no_script) ++ [Screened "import os; os.system('rm -rf /')"])%list /\
    count is_executed [Screened "import os; os.system('rm -rf /')"] = 0%nat /\
    world st' = world (start no_script).
Proof.
  apply (verify_python_static_rejection (list host_response) scripted_host).
  exists (mkPattern "\bos\.system\s*\("
            (WordBoundary :: lits "os.system" ++ [Star Space; One (Lit "(")])).
  split; [left; reflexivity|vm_compute; reflexivity].
Defined.

(** C5, counterexample.  A payload that exits with code 1 comes back with
    [ok], the output and the exit code, and nothing that names a kind of
    failure: no [failure_kind], no [error].  A launcher that starts and then
    exits with its own code 125, the sandbox never having run, comes back in
    the same form.  When the temporary file cannot be written there is no
    outcome at all: the call raises. *)
Lemma run_in_docker_untagged_failures :
  fst (run_in_docker scripted_host "raise SystemExit(1)" 5
         (start [Exited 1 "" "boom"]))
  = Ok [("ok", VBool false); ("stdout", VStr ""); ("stderr", VStr "boom");
        ("return_code", VInt 1)] /\
  PyDict.lookup "failure_kind"
    [("ok", VBool false); ("stdout", VStr ""); ("stderr", VStr "boom");
     ("return_code", VInt 1)] = None /\
  PyDict.lookup "error"
    [("ok", VBool false); ("stdout", VStr ""); ("stderr", VStr "boom");
     ("return_code", VInt 1)] = None /\
  fst (run_in_docker scripted_host "print(1)" 5
         (start [Exited 125 "" "docker: Cannot connect to the Docker daemon."]))
  = Ok [("ok", VBool false); ("stdout", VStr "");
        ("stderr", VStr "docker: Cannot connect to the Docker daemon.");
        ("return_code", VInt 125)] /\
  fst (run_in_docker scripted_host "print(1)" 5
         (start [TempFileError "[Errno 28] No space left on device"]))
  = Raise (Exception "[Errno 28] No space left on device") /\
  (forall d : dict,
      fst (run_in_docker scripted_host "print(1)" 5
             (start [TempFileError "[Errno 28] No space left on device"]))
      <> Ok d).
Proof.
  repeat (split; [vm_compute; reflexivity|]).
  intros d H. vm_compute in H. discriminate H.
Qed.

(** C7 at three candidates: the first fails in the sandbox, writing the
    temporary file fails for the second, the third passes.  The fault is
    recorded at position 1 and the third candidate is still evaluated. *)
Lemma verify_python_catches_faults_witness :
  exists res st',
    verify_python scripted_host
      (CodeList (["print(a)"] ++ "print('b')" :: ["print('c')"])) 5
      (start [Exited 1 "" "NameError"; TempFileError "disk full";
              Exited 0 "c" ""])
    = (Ok res, st') /\
    nth_error (tried_blocks res) 1
    = Some (VDict [("index", VInt 1); ("skipped", VBool false);
                   ("verified", VBool false);
                   ("reason", VStr "exception_in_verifier");
                   ("details", VDict [("error", VStr "disk full")])]) /\
    verify_blocks scripted_host 5 2 ["print('c')"]
      (tried_blocks
         [("verified", VBool false); ("reason", VStr "no_block_verified");
          ("details",
           VDict [("tried_blocks",
                   VList [VDict
                            [("index", VInt 0); ("skipped", VBool false);
                             ("verified", VBool false);
                             ("reason", VStr "docker_failed");
                             ("details",
                              VDict [("ok", VBool false); ("stdout", VStr "");
                                     ("stderr", VStr "NameError");
                                     ("return_code", VInt 1)])]])])]
       ++ [VDict [("index", VInt 1); ("skipped", VBool false);
                  ("verified", VBool false);
                  ("reason", VStr "exception_in_verifier");
                  ("details", VDict [("error", VStr "disk full")])]])
      (mkState [Exited 0 "c" ""]
         [Screened "print(a)"; Normalized "print(a)";
          Executed (make_executable_snippet "print(a)") 5;
          Screened "print('b')"; Normalized "print('b')";
          Executed (make_executable_snippet "print('b')") 5])
    = (Ok res, st') /\
    (PyDict.get res "verified" = VBool false ->
     List.length (tried_blocks res)
     = List.length (["print(a)"] ++ "print('b')" :: ["print('c')"])).
Proof.
  refine (proj2 (verify_python_catches_faults (list host_response)
                   scripted_host)
            ["print(a)"] "print('b')" ["print('c')"] 5%Z
            (start [Exited 1 "" "NameError"; TempFileError "disk full";
                    Exited 0 "c" ""])
            _ (mkState [TempFileError "disk full"; Exited 0 "c" ""] _)
            (Exception "disk full") _ _ _ _ _).
  - vm_compute. reflexivity.
  - reflexivity.
  - reflexivity.
  - vm_compute. reflexivity.
Defined.

(** C8, the failing run.  In a batch call the screener's matches of a
    rejected candidate are lost: the single form returns them under
    [matches], the loop copies only [details], and the record ends up with
    [details = None] and no [matches]. *)
Lemma batch_record_drops_matches :
  fst (_verify_single scripted_host "import os; os.system('rm -rf /')" 5
         (start no_script))
  = Ok [("verified", VBool false); ("reason", VStr "static_blacklist_match");
        ("matches", VList [VStr "\bos\.system\s*\("])] /\
  fst (verify_python scripted_host
         (CodeList ["import os; os.system('rm -rf /')"]) 5 (start no_script))
  = Ok [("verified", VBool false); ("reason", VStr "no_block_verified");
        ("details",
         VDict [("tried_blocks",
                 VList [VDict [("index", VInt 0); ("skipped", VBool false);
                               ("verified", VBool false);
                               ("reason", VStr "static_blacklist_match");
                               ("details", VNone)]])])].
Proof. split; vm_compute; reflexivity. Qed.

(** The batch [A, B, C] with A failing and B passing: two records, two
    executions, and the host's third answer is never asked for. *)
Example short_circuit_A_B_C :
  exists res st',
    verify_python scripted_host
      (CodeList ["print(a)"; "print('hi')"; "print('later')"]) 5
      (start [Exited 1 "" "NameError"; Exited 0 "hi" ""; Exited 0 "later" ""])
    = (Ok res, st') /\
    PyDict.get res "verified" = VBool true /\
    map is_verified (tried_blocks res) = [false; true] /\
    count is_executed (trace st') = 2%nat /\
    world st' = [Exited 0 "later" ""].
Proof. eexists _, _. split; [vm_compute; reflexivity|]. repeat split. Qed.

(** A batch in which nothing verifies: a record for each of the four
    candidates, the skipped one included. *)
Example no_block_verified_run :
  exists res st',
    verify_python scripted_host
      (CodeList ["x"; "print(a)"; "eval('1')"; "while True: pass"]) 5
      (start [Exited 1 "" "NameError"; TimeoutExpired])
    = (Ok res, st') /\
    PyDict.get res "reason" = VStr "no_block_verified" /\
    map (fun e => field e "reason") (tried_blocks res)
    = [VStr "too_short"; VStr "docker_failed";
       VStr "static_blacklist_match"; VStr "docker_failed"] /\
    map (fun e => field e "index") (tried_blocks res)
    = [VInt 0; VInt 1; VInt 2; VInt 3].
Proof. eexists _, _. split; [vm_compute; reflexivity|]. repeat split. Qed.

(** C1 at the batch [A, B, C]: B's record is verified and is the last of the
    two records, and the result and final state are the same whatever is
    appended to the list. *)
Lemma verify_python_short_circuit_witness :
  exists res st',
    verify_python scripted_host
      (CodeList ["print(a)"; "print('hi')"; "print('later')"]) 5
      (start [Exited 1 "" "NameError"; Exited 0 "hi" ""; Exited 0 "later" ""])
    = (Ok res, st') /\
    map is_verified (tried_blocks res) = [false; true] /\
    count is_executed (trace st') = 2%nat /\
    forall post,
      verify_python scripted_host
        (CodeList (["print(a)"; "print('hi')"; "print('later')"] ++ post)) 5
        (start [Exited 1 "" "NameError"; Exited 0 "hi" "";
                Exited 0 "later" ""])
      = (Ok res, st').
Proof.
  destruct (verify_python_short_circuit (list host_response) scripted_host
              ["print(a)"; "print('hi')"; "print('later')"] 5%Z
              (start [Exited 1 "" "NameError"; Exited 0 "hi" "";
                      Exited 0 "later" ""]))
    as (res & st' & evs & E & _ & _ & H & _).
  exists res, st'. split; [exact E|].
  vm_compute in E. injection E as <- <-.
  split; [reflexivity|]. split; [reflexivity|].
  intros post.
  edestruct (H 1%nat) as (_ & _ & Hp); [reflexivity|reflexivity|apply Hp].
Defined.


Arguments mkRState {World Time} rworld cache rlog.
Arguments rworld {World Time} r.
Arguments cache {World Time} r.
Arguments rlog {World Time} r.
Arguments Requested {Time} url params timeout.
Arguments Slept {Time} seconds.
Arguments Printed {Time} m.
Arguments requests_in {Time} evs.

(** ** Concrete runs for the further facts *)

(** X7 at a batch of a short candidate and a blacklisted one. *)
Lemma batch_without_runnable_candidate_witness :
  exists res st',
    verify_python scripted_host (CodeList ["x"; "eval('1')"]) 5
      (start no_script) = (Ok res, st') /\
    PyDict.get res "reason" = VStr "no_block_verified" /\
    world st' = world (start no_script) /\
    trace st'
    = (trace (start no_script) ++
       map Screened
         (filter (fun blk => negb (too_short blk)) ["x"; "eval('1')"]))%list.
Proof.
  apply (batch_without_runnable_candidate (list host_response) scripted_host).
  apply Forall_cons; [left; reflexivity|].
  apply Forall_cons; [right; vm_compute; reflexivity|].
  apply Forall_nil.
Defined.

(** X9 at [print('hi')] with a sandbox that exits with 0. *)
Lemma batch_of_one_agrees_with_single_form_witness :
  exists res,
    fst (verify_python scripted_host (CodeList ["print('hi')"]) 5
           (start [Exited 0 "hi" ""])) = Ok res /\
    PyDict.get res "verified" = VBool true /\
    PyDict.get res "reason" = VStr "docker_passed".
Proof.
  edestruct (batch_of_one_agrees_with_single_form (list host_response)
               scripted_host "print('hi')" 5%Z (start [Exited 0 "hi" ""]))
    as (res & e & E & V & _ & _ & _ & _ & _ & Hr).
  - reflexivity.
  - vm_compute. reflexivity.
  - exists res. rewrite E. split; [reflexivity|]. split.
    + rewrite V. reflexivity.
    + rewrite Hr; reflexivity.
Defined.

(** X10 at ["1 + 1"]: skipped in a list, screened on its own. *)
Lemma length_filter_only_in_batch_witness :
  fst (verify_python scripted_host (CodeList ["1 + 1"]) 5
         (start [Exited 0 "2" ""]))
  = Ok [("verified", VBool false); ("reason", VStr "no_block_verified");
        ("details",
         VDict [("tried_blocks",
                 VList [VDict [("index", VInt 0); ("skipped", VBool true);
                               ("verified", VBool false);
                               ("reason", VStr "too_short");
                               ("details", VNone)]])])] /\
  exists evs,
    trace (snd (verify_python scripted_host (CodeStr "1 + 1") 5
                  (start [Exited 0 "2" ""])))
    = (trace (start [Exited 0 "2" ""]) ++ Screened "1 + 1" :: evs)%list.
Proof.
  destruct (length_filter_only_in_batch (list host_response) scripted_host
              "1 + 1" 5%Z (start [Exited 0 "2" ""]) eq_refl) as [E H].
  split; [now rewrite E|exact H].
Defined.

(** A batch of four: the first candidate is too short, the second fails in
    the sandbox, the third passes, the fourth is not reached.  The history
    has the records 0, 1, 2 of the first three candidates, and the screener
    saw the second and the third. *)
Example dense_indices_run :
  let run :=
    verify_python scripted_host
      (CodeList ["x"; "print(a)"; "print('b')"; "print('c')"]) 5
      (start [Exited 1 "" "NameError"; Exited 0 "b" ""]) in
  match fst run with
  | Ok res =>
      map (fun e => field e "index") (tried_blocks res)
      = [VInt 0; VInt 1; VInt 2] /\
      map (fun e => field e "skipped") (tried_blocks res)
      = [VBool true; VBool false; VBool false] /\
      map (fun e => field e "verified") (tried_blocks res)
      = [VBool false; VBool false; VBool true]
  | Raise _ => False
  end /\
  screened_codes (trace (snd run)) = ["print(a)"; "print('b')"].
Proof. vm_compute. repeat split. Qed.

(** A request that times out, then is refused, then is answered: each failed
    attempt is followed by its line and its sleep, of 3/4 and then 6/4
    seconds, and the third request ends the call. *)
Example _safe_get_retry_run :
  rlog (snd (_safe_get net QArith_base.Q net_clock net_sleep
               QArith_base.Qminus q_gt q_mul net_http net_repr "u" [] 3 10
               (QArith_base.Qmake 3 4)
               (mkRState
                  (mkNet (QArith_base.Qmake 0 1)
                     [HttpTimeout; HttpRequestError "503";
                      HttpJson (VList [VInt 1])]) [] [])))
  = [Requested "u" [] 10;
     Printed (MsgWarnTimeout 1 3 "u");
     Slept (QArith_base.Qmake 3 4);
     Requested "u" [] 10;
     Printed (MsgError "u" "503");
     Slept (QArith_base.Qmake 6 4);
     Requested "u" [] 10].
Proof. vm_compute. reflexivity. Qed.

(** X12 with an empty cache and a clock that stands still: the data saved is
    read back. *)
Lemma cache_save_then_get_witness :
  fst (rbind net QArith_base.Q (_save_to_cache net QArith_base.Q net_clock
                                  "k" (VStr "data"))
         (fun _ => _get_from_cache net QArith_base.Q net_clock
                     QArith_base.Qminus q_gt "k")
         (mkRState (mkNet (QArith_base.Qmake 0 1) []) [] []))
  = Ok (VStr "data").
Proof.
  pose proof (cache_save_then_get net QArith_base.Q net_clock
                QArith_base.Qminus q_gt "k" (VStr "data")
                (mkRState (mkNet (QArith_base.Qmake 0 1) []) [] [])
                (NoDup_nil _)) as H.
  cbv zeta in H. destruct H as (H & _). rewrite H. reflexivity.
Defined.

(** X14 with a response cached ten seconds ago. *)
Lemma _safe_get_cache_hit_witness :
  fst (_safe_get net QArith_base.Q net_clock net_sleep QArith_base.Qminus
         q_gt q_mul net_http net_repr "u" [] 3 10 (QArith_base.Qmake 3 4)
         (mkRState (mkNet (QArith_base.Qmake 10 1) [])
            [("u:", (QArith_base.Qmake 0 1, VList [VInt 1]))] []))
  = Ok (VList [VInt 1]).
Proof.
  rewrite (_safe_get_cache_hit net QArith_base.Q net_clock net_sleep
             QArith_base.Qminus q_gt q_mul net_http net_repr "u" [] 3 10
             (QArith_base.Qmake 3 4)
             (mkRState (mkNet (QArith_base.Qmake 10 1) [])
                [("u:", (QArith_base.Qmake 0 1, VList [VInt 1]))] [])
             (QArith_base.Qmake 0 1) (VList [VInt 1])
             eq_refl eq_refl eq_refl).
  reflexivity.
Defined.

(** X15 with the empty dictionary cached ten seconds ago. *)
Lemma _safe_get_empty_entry_not_served_witness :
  exists evs,
    rlog (snd (_safe_get net QArith_base.Q net_clock net_sleep
                 QArith_base.Qminus q_gt q_mul net_http net_repr "u" [] 3 10
                 (QArith_base.Qmake 3 4)
                 (mkRState (mkNet (QArith_base.Qmake 10 1) [])
                    [("u:", (QArith_base.Qmake 0 1, VDict []))] [])))
    = ([] ++ Requested "u" [] 10 :: evs)%list.
Proof.
  apply (_safe_get_empty_entry_not_served net QArith_base.Q net_clock
           net_sleep QArith_base.Qminus q_gt q_mul net_http net_repr "u" []
           3 10 (QArith_base.Qmake 3 4)
           (mkRState (mkNet (QArith_base.Qmake 10 1) [])
              [("u:", (QArith_base.Qmake 0 1, VDict []))] [])
           (QArith_base.Qmake 0 1) (VDict []));
    reflexivity.
Defined.

(** X16 with one response in the script: the second call does not need a
    second one. *)
Lemma _safe_get_twice_witness :
  fst (rbind net QArith_base.Q
         (_safe_get net QArith_base.Q net_clock net_sleep QArith_base.Qminus
            q_gt q_mul net_http net_repr "u" [] 3 10 (QArith_base.Qmake 3 4))
         (fun _ =>
            _safe_get net QArith_base.Q net_clock net_sleep
              QArith_base.Qminus q_gt q_mul net_http net_repr "u" [] 3 10
              (QArith_base.Qmake 3 4))
         (mkRState (mkNet (QArith_base.Qmake 0 1) [HttpJson (VList [VInt 1])])
            [] []))
  = Ok (VList [VInt 1]).
Proof.
  rewrite (_safe_get_twice net QArith_base.Q net_clock net_sleep
             QArith_base.Qminus q_gt q_mul net_http net_repr "u" [] 3 10
             (QArith_base.Qmake 3 4)
             (mkRState (mkNet (QArith_base.Qmake 0 1)
                          [HttpJson (VList [VInt 1])]) [] [])
             (VList [VInt 1]) eq_refl eq_refl eq_refl eq_refl eq_refl).
  reflexivity.
Defined.

(** X17 on a response that lists question 1 twice and question 2 once. *)
Lemma search_stackoverflow_result_witness :
  exists res,
    fst (search_stackoverflow net QArith_base.Q net_clock net_sleep
           QArith_base.Qminus q_gt q_mul net_http net_repr
           (QArith_base.Qmake 3 4) "x" 3
           (mkRState
              (mkNet (QArith_base.Qmake 0 1)
                 [HttpJson
                    (VDict
                       [("items",
                         VList [VDict [("question_id", VInt 1)];
                                VDict [("question_id", VInt 2)];
                                VDict [("question_id", VInt 1)]])])])
              [] [])) = Ok res /\
    map qid_of res = [VInt 1; VInt 2] /\
    ForallOrdPairs (fun a b => py_eq b a = false) (map qid_of res).
Proof.
  set (s := mkRState _ _ _).
  set (run := search_stackoverflow net QArith_base.Q net_clock net_sleep
                QArith_base.Qminus q_gt q_mul net_http net_repr
                (QArith_base.Qmake 3 4) "x" 3 s).
  assert (E : run = (Ok [[("question_id", VInt 1); ("title", VNone);
                          ("link", VNone)];
                         [("question_id", VInt 2); ("title", VNone);
                          ("link", VNone)]], snd run))
    by (vm_compute; reflexivity).
  eexists. split; [rewrite E; reflexivity|]. split; [reflexivity|].
  exact (proj1 (search_stackoverflow_result net QArith_base.Q net_clock
                  net_sleep QArith_base.Qminus q_gt q_mul net_http net_repr
                  (QArith_base.Qmake 3 4) "x" 3 s _ _ E)).
Defined.

(** X18 with the network that refuses every connection. *)
Lemma retriever_survives_dead_network_witness :
  fst (search_stackoverflow net QArith_base.Q net_clock net_sleep
         QArith_base.Qminus q_gt q_mul dead_http net_repr
         (QArith_base.Qmake 3 4) "x" 3
         (mkRState (mkNet (QArith_base.Qmake 0 1) []) [] [])) = Ok [] /\
  fst (fetch_answers net QArith_base.Q net_clock net_sleep
         QArith_base.Qminus q_gt q_mul dead_http net_repr
         (QArith_base.Qmake 3 4) 42 10
         (mkRState (mkNet (QArith_base.Qmake 0 1) []) [] [])) = Ok [].
Proof.
  apply (retriever_survives_dead_network net QArith_base.Q net_clock
           net_sleep QArith_base.Qminus q_gt q_mul dead_http net_repr
           (QArith_base.Qmake 3 4) "x" 3 42 10
           (mkRState (mkNet (QArith_base.Qmake 0 1) []) [] [])).
  - intros w u p t. reflexivity.
  - reflexivity.
Defined.


(** X20 on a response with an accepted answer listed last. *)
Lemma fetch_answers_order_witness :
  exists answers,
    fst (fetch_answers net QArith_base.Q net_clock net_sleep
           QArith_base.Qminus q_gt q_mul net_http net_repr
           (QArith_base.Qmake 3 4) 42 10
           (mkRState
              (mkNet (QArith_base.Qmake 0 1)
                 [HttpJson
                    (VDict
                       [("items",
                         VList [VDict [("answer_id", VInt 1);
                                       ("score", VInt 5)];
                                VDict [("answer_id", VInt 2);
                                       ("is_accepted", VBool true);
                                       ("score", VInt 1)]])])])
              [] [])) = Ok answers /\
    map (fun a => PyDict.get a "answer_id") answers = [VInt 2; VInt 1] /\
    StronglySorted
      (fun a b =>
         (is_accepted b = true -> is_accepted a = true) /\
         (is_accepted a = is_accepted b -> (score_of b <= score_of a)%Z))
      answers.
Proof.
  set (s := mkRState _ _ _).
  set (run := fetch_answers net QArith_base.Q net_clock net_sleep
                QArith_base.Qminus q_gt q_mul net_http net_repr
                (QArith_base.Qmake 3 4) 42 10 s).
  assert (E : run = (Ok [[("answer_id", VInt 2); ("body", VStr "");
                          ("is_accepted", VBool true); ("score", VInt 1)];
                         [("answer_id", VInt 1); ("body", VStr "");
                          ("is_accepted", VBool false); ("score", VInt 5)]],
                     snd run))
    by (vm_compute; reflexivity).
  eexists. split; [rewrite E; reflexivity|]. split; [reflexivity|].
  refine (proj1 (fetch_answers_order net QArith_base.Q net_clock net_sleep
                   QArith_base.Qminus q_gt q_mul net_http net_repr
                   (QArith_base.Qmake 3 4) 42 10 s _ _ E _)).
  apply Forall_cons; [reflexivity|].
  apply Forall_cons; [reflexivity|]. apply Forall_nil.
Defined.

(** X21 on the toy document. *)
Lemma extract_code_blocks_clean_witness :
  PyStr.strip "x = 1" = "x = 1" /\
  (3 <= PyStr.len "x = 1")%nat /\
  make_executable_snippet "x = 1"
  = if PyStr.contains PyStr.LF "x = 1" then "x = 1" ++ PyStr.newline
    else "print(" ++ "x = 1" ++ ")" ++ PyStr.newline.
Proof.
  apply (extract_code_blocks_clean (list (string * string)) (string * string)
           toy_parse toy_find_all toy_find toy_text "  x = 1 " "x = 1").
  left. reflexivity.
Defined.
